(** * storage-labels icon tools

    A shallow embedding of the two scripts under
    [storage-labels-ui/tools]:

    - [create_custom_icon.py] (the icon synthesizer), and
    - [update_icons.py] (the icon recolorizer),

    followed by the properties their specification states about them.

    Python numbers are modelled as they are used: an [int] is a [Z], a
    [float] is an IEEE 754 binary64 value (the kernel's primitive floats,
    the same format as CPython's), and the conversions between them are
    written out.  A Pillow image is a width, a height and the row-major
    list of its RGBA pixels.  Pillow's rasterizer is a library of its own:
    the development is parametric in which pixels each shape covers. *)

From Stdlib Require Import ZArith Lia List Floats.
From stdpp Require Import base option list strings gmap.
From Stdlib Require Import QArith Qabs.

#[local] Close Scope Q_scope.
#[local] Set Warnings "-inexact-float".
#[local] Open Scope Z_scope.

(** ** Python numbers *)

Module Py.

(** [float(z)], and the implicit conversion of an [int] operand of a
    mixed [int]/[float] operation: the nearest binary64 value, ties to
    even.  (CPython raises [OverflowError] from 2^1024 on, where this
    gives an infinity; no image can be that large.) *)
Definition float_of_int (z : Z) : float :=
  SF2Prim (binary_normalize prec emax z 0 false).

(** [int(f)]: truncation toward zero.  (CPython raises on an infinity or
    a NaN; this returns 0 there.  Neither script can reach those cases
    with an image that Pillow can hold.) *)
Definition int (f : float) : Z :=
  match Prim2SF f with
  | S754_finite s m e =>
      let v := match e with
               | Z0 => Z.pos m
               | Zpos p => Z.shiftl (Z.pos m) (Zpos p)
               | Zneg p => Z.shiftr (Z.pos m) (Zpos p)
               end in
      if s then - v else v
  | _ => 0
  end.

(** [range(n)] *)
Definition range (n : Z) : list Z := seqZ 0 n.

(** [for i in l: body], where the body may raise: the first failure
    aborts the loop. *)
Fixpoint for_each {S : Type} (l : list Z) (body : Z → S → option S) (s : S)
  : option S :=
  match l with
  | [] => Some s
  | i :: l' => s' ← body i s; for_each l' body s'
  end.

End Py.

(** ** Pillow images *)

(** An RGBA colour, [(r, g, b, a)]. *)
Definition color : Type := Z * Z * Z * Z.

Definition alpha (c : color) : Z := c.2.

Definition valid_color (c : color) : bool :=
  let '(r, g, b, a) := c in
  (0 <=? r) && (r <=? 255) && (0 <=? g) && (g <=? 255) &&
  (0 <=? b) && (b <=? 255) && (0 <=? a) && (a <=? 255).

(** [Image]: [img.size] is [(im_width, im_height)], and the pixel
    [(x, y)] is the entry [y * im_width + x] of [im_data]. *)
Record image := Image {
  im_width : Z;
  im_height : Z;
  im_data : list color
}.

(** What [Image.open(...).convert('RGBA')] can return: a raster with as
    many pixels as its size says, each channel a byte. *)
Definition wf_image (img : image) : bool :=
  (0 <=? im_width img) && (0 <=? im_height img) &&
  (Z.of_nat (length (im_data img)) =? im_width img * im_height img) &&
  forallb valid_color (im_data img).

(** [Image.new('RGBA', (w, h), c)] *)
Definition Image_new (w h : Z) (c : color) : image :=
  Image w h (replicate (Z.to_nat (w * h)) c).

(** The offset of pixel [(x, y)], or [None] where Pillow's pixel access
    raises [IndexError]. *)
Definition offset (img : image) (x y : Z) : option nat :=
  if (0 <=? x) && (x <? im_width img) && (0 <=? y) && (y <? im_height img)
  then Some (Z.to_nat (y * im_width img + x))
  else None.

(** [img.load()[x, y]] *)
Definition getpixel (img : image) (x y : Z) : option color :=
  i ← offset img x y; im_data img !! i.

(** [img.load()[x, y] = c] *)
Definition putpixel (img : image) (x y : Z) (c : color) : option image :=
  i ← offset img x y;
  _ ← im_data img !! i;
  Some (Image (im_width img) (im_height img) (<[i:=c]> (im_data img))).

(** Filling a region with an ink.  [ImageDraw.Draw(img)] on an RGBA image
    writes the ink over the pixels that a shape covers (no blending), and
    clips the shape to the image. *)
Definition paint (covers : Z → Z → bool) (ink : color) (img : image) : image :=
  Image (im_width img) (im_height img)
    (imap (λ i c,
       if covers (Z.of_nat i `mod` im_width img) (Z.of_nat i `div` im_width img)
       then ink else c)
      (im_data img)).

(** ** The drawing interface *)

Definition point : Type := float * float.

(** The shapes the two scripts draw, with the arguments they pass.  The
    ellipses get integer bounding boxes, everything else floats. *)
Inductive draw_call :=
| Ellipse (xy : Z * Z * Z * Z) (fill : color)
| Rectangle (xy : float * float * float * float)
    (fill outline : color) (width : Z)
| Polygon (xy : list point) (fill outline : color)
| Line (xy : list point) (fill : color) (width : Z).

(** Which pixels a shape covers is Pillow's business.  A rasterizer says,
    for each shape, whether pixel [(x, y)] belongs to its interior and to
    its outline. *)
Class Rasterizer := {
  ellipse_mask : Z * Z * Z * Z → Z → Z → bool;
  rectangle_mask : float * float * float * float → Z → Z → bool;
  rectangle_edge : float * float * float * float → Z → Z → Z → bool;
  polygon_mask : list point → Z → Z → bool;
  polygon_edge : list point → Z → Z → bool;
  line_mask : list point → Z → Z → Z → bool
}.

Section Drawing.
Context {R : Rasterizer}.

(** One [draw.<shape>(...)] call: the interior is filled first, the
    outline is drawn over it. *)
Definition draw (img : image) (c : draw_call) : image :=
  match c with
  | Ellipse xy fill => paint (ellipse_mask xy) fill img
  | Rectangle xy fill outline width =>
      paint (rectangle_edge xy width) outline
        (paint (rectangle_mask xy) fill img)
  | Polygon xy fill outline =>
      paint (polygon_edge xy) outline (paint (polygon_mask xy) fill img)
  | Line xy fill width => paint (line_mask xy width) fill img
  end.

(** Whether a call touches pixel [(x, y)]. *)
Definition touches (c : draw_call) (x y : Z) : bool :=
  match c with
  | Ellipse xy _ => ellipse_mask xy x y
  | Rectangle xy _ _ width =>
      rectangle_mask xy x y || rectangle_edge xy width x y
  | Polygon xy _ _ => polygon_mask xy x y || polygon_edge xy x y
  | Line xy _ width => line_mask xy width x y
  end.

(** No call of [calls] touches pixel [(x, y)]. *)
Definition untouched (calls : list draw_call) (x y : Z) : bool :=
  forallb (λ c, negb (touches c x y)) calls.

(** The colour that a call leaves on pixel [(x, y)], if it touches it:
    the outline where there is one, the fill elsewhere. *)
Definition ink_at (c : draw_call) (x y : Z) : option color :=
  match c with
  | Ellipse xy fill => if ellipse_mask xy x y then Some fill else None
  | Rectangle xy fill outline width =>
      if rectangle_edge xy width x y then Some outline
      else if rectangle_mask xy x y then Some fill else None
  | Polygon xy fill outline =>
      if polygon_edge xy x y then Some outline
      else if polygon_mask xy x y then Some fill else None
  | Line xy fill width => if line_mask xy width x y then Some fill else None
  end.

(** The inks of a call. *)
Definition inks (c : draw_call) : list color :=
  match c with
  | Ellipse _ fill => [fill]
  | Rectangle _ fill outline _ => [fill; outline]
  | Polygon _ fill outline => [fill; outline]
  | Line _ fill _ => [fill]
  end.

End Drawing.

(** ** The file system and the console *)

(** A PNG file is identified with the RGBA raster it decodes to. *)
Record world := World {
  files : gmap string image;
  stdout : list string
}.

(** [img.save(path, 'PNG')], where the directory of [path] exists and can
    be written to: the file is created or overwritten.  That Pillow raises
    otherwise is not modelled; no statement below is about that case. *)
Definition save (img : image) (path : string) (w : world) : world :=
  World (<[path:=img]> (files w)) (stdout w).

(** [print(line)] *)
Definition print (line : string) (w : world) : world :=
  World (files w) (stdout w ++ [line]).

(** ** update_icons.py *)

Module Recolorizer.
Section Recolorizer.
Context {R : Rasterizer}.

Definition transparent : color := (0, 0, 0, 0).
Definition light_red : color := (255, 179, 186, 255).
Definition circle_margin : Z := 0.

(** [intensity = (r + g + b) / (3 * 255)]: true division of two ints,
    the correctly rounded quotient; both are far below 2^53, so that it
    is the quotient of their conversions. *)
Definition intensity (r g b : Z) : float :=
  (Py.float_of_int (r + g + b) / Py.float_of_int (3 * 255))%float.

(** The body of the two loops, at [(x, y)]. *)
Definition process_pixel (pixels : image) (y x : Z) (new_pixels : image)
  : option image :=
  '(r, g, b, a) ← getpixel pixels x y;
  if a =? 0 then Some new_pixels
  else if 0 <? a then
    let intensity := intensity r g b in
    let brown_r := Py.int (Py.float_of_int 139 * intensity)%float in
    let brown_g := Py.int (Py.float_of_int 69 * intensity)%float in
    let brown_b := Py.int (Py.float_of_int 19 * intensity)%float in
    putpixel new_pixels x y (brown_r, brown_g, brown_b, a)
  else Some new_pixels.

(** The new image once the circle is drawn, before the loops. *)
Definition background (width height : Z) : image :=
  let new_img := Image_new width height transparent in
  draw new_img
    (Ellipse (circle_margin, circle_margin,
              width - circle_margin, height - circle_margin) light_red).

(** From the opened image to the image that is saved. *)
Definition update_icon_image (img : image) : option image :=
  let width := im_width img in
  let height := im_height img in
  let new_img := background width height in
  Py.for_each (Py.range height)
    (λ y, Py.for_each (Py.range width) (process_pixel img y))
    new_img.

(** [update_icon(input_path, output_path)]; a missing input file and a
    failing pixel access abort the run. *)
Definition update_icon (input_path output_path : string) (w : world)
  : option world :=
  img ← files w !! input_path;
  new_img ← update_icon_image img;
  Some (print ("Updated icon saved to: " +:+ output_path)
          (save new_img output_path w)).

End Recolorizer.
End Recolorizer.

(** ** create_custom_icon.py *)

Module Synthesizer.
Section Synthesizer.
Context {R : Rasterizer}.

Definition transparent : color := (0, 0, 0, 0).
Definition off_white : color := (245, 245, 240, 255).
Definition brown : color := (139, 69, 19, 255).
Definition dark_brown : color := (101, 50, 14, 255).
Definition box_outline : color := (80, 40, 10, 255).

#[local] Notation "# z" := (Py.float_of_int z) (at level 5, format "# z").
#[local] Open Scope float_scope.

(** The dimensions, each a fraction of [size]. *)
Definition margin (size : Z) : float := #size * 0.15.
Definition content_width (size : Z) : float := #size - (#2 * margin size).
Definition content_height (size : Z) : float := #size - (#2 * margin size).

Definition shelf_thickness (size : Z) : float := #size * 0.04.
Definition num_shelves : Z := 3.
Definition shelf_spacing (size : Z) : float :=
  content_height size / #(num_shelves + 1).

Definition box_width (size : Z) : float := #size * 0.12.
Definition box_height (size : Z) : float := #size * 0.10.
Definition box_depth (size : Z) : float := #size * 0.06.

(** The background circle. *)
Definition circle (size : Z) : draw_call :=
  Ellipse (0, 0, size, size)%Z off_white.

(** One turn of the loop over the shelves. *)
Definition shelf_y (size i : Z) : float :=
  margin size + shelf_spacing size * #(i + 1).

Definition draw_shelf (size i : Z) : list draw_call :=
  let shelf_y := shelf_y size i in
  let shelf_depth := box_depth size in
  let shelf_left := margin size - #size * 0.05 in
  let shelf_right := margin size + content_width size + #size * 0.05 in
  [ (* front face *)
    Rectangle
      (margin size - #size * 0.05, shelf_y,
       margin size + content_width size + #size * 0.05,
       shelf_y + shelf_thickness size)
      dark_brown box_outline (Z.max 1 (Py.int (#size * 0.005)));
    (* top face *)
    Polygon
      [ (shelf_left, shelf_y);
        (shelf_left + shelf_depth * 0.5, shelf_y - shelf_depth * 0.3);
        (shelf_right + shelf_depth * 0.5, shelf_y - shelf_depth * 0.3);
        (shelf_right, shelf_y) ]
      (121, 70, 34, 255)%Z box_outline;
    (* right edge *)
    Polygon
      [ (shelf_right, shelf_y);
        (shelf_right + shelf_depth * 0.5, shelf_y - shelf_depth * 0.3);
        (shelf_right + shelf_depth * 0.5,
         shelf_y + shelf_thickness size - shelf_depth * 0.3);
        (shelf_right, shelf_y + shelf_thickness size) ]
      (81, 50, 24, 255)%Z box_outline ].

(** Where the boxes stand. *)
Definition shelf_1_y (size : Z) : float :=
  margin size + shelf_spacing size * #1 - box_height size.
Definition boxes_shelf_1 (size : Z) : list float :=
  [ margin size + #size * 0.05;
    margin size + #size * 0.22;
    margin size + #size * 0.39 ].

Definition shelf_2_y (size : Z) : float :=
  margin size + shelf_spacing size * #2 - box_height size.
Definition boxes_shelf_2 (size : Z) : list float :=
  [ margin size + #size * 0.1;
    margin size + #size * 0.32 ].

Definition shelf_3_y (size : Z) : float :=
  margin size + shelf_spacing size * #3 - box_height size.
Definition boxes_shelf_3 (size : Z) : list float :=
  [ margin size + #size * 0.02;
    margin size + #size * 0.2;
    margin size + #size * 0.42 ].

(** [draw_3d_box(x, y, w, h, d)], a closure over [size]. *)
Definition draw_3d_box (size : Z) (x y w h d : float) : list draw_call :=
  let line_y := y + h * 0.4 in
  [ (* front face *)
    Rectangle (x, y, x + w, y + h)
      brown box_outline (Z.max 1 (Py.int (#size * 0.005)));
    (* top face *)
    Polygon
      [ (x, y);
        (x + d * 0.5, y - d * 0.3);
        (x + w + d * 0.5, y - d * 0.3);
        (x + w, y) ]
      (169, 89, 39, 255)%Z box_outline;
    (* right face *)
    Polygon
      [ (x + w, y);
        (x + w + d * 0.5, y - d * 0.3);
        (x + w + d * 0.5, y + h - d * 0.3);
        (x + w, y + h) ]
      (109, 59, 29, 255)%Z box_outline;
    (* tape *)
    Line [ (x + w * 0.2, line_y); (x + w * 0.8, line_y) ]
      box_outline (Z.max 1 (Py.int (#size * 0.004))) ].

#[local] Close Scope float_scope.

(** Every [draw] call of [create_storage_icon(size, ...)], in the order
    the script makes them. *)
Definition draw_calls (size : Z) : list draw_call :=
  circle size
  :: (i ← Py.range num_shelves; draw_shelf size i)
  ++ (box_x ← boxes_shelf_1 size;
      draw_3d_box size box_x (shelf_1_y size)
        (box_width size) (box_height size) (box_depth size))
  ++ (box_x ← boxes_shelf_2 size;
      draw_3d_box size box_x (shelf_2_y size)
        (box_width size) (box_height size) (box_depth size))
  ++ (box_x ← boxes_shelf_3 size;
      draw_3d_box size box_x (shelf_3_y size)
        (box_width size) (box_height size) (box_depth size)).

(** The image that is saved. *)
Definition create_storage_icon_image (size : Z) : image :=
  foldl draw (Image_new size size transparent) (draw_calls size).

(** [create_storage_icon(size, output_path)] *)
Definition create_storage_icon (size : Z) (output_path : string) (w : world)
  : world :=
  print ("Created custom icon: " +:+ output_path)
    (save (create_storage_icon_image size) output_path w).

End Synthesizer.
End Synthesizer.

(** ** A reference rasterizer *)

(** Pillow's rasterizer is not part of the repository.  The specification
    speaks of a disc inscribed in the canvas, of rectangles and of
    polygons; [Geometric] takes these words literally, on pixel
    coordinates.  It is the instance at which the closed examples below
    are evaluated; the theorems hold for every rasterizer. *)
Module Geometric.

#[local] Notation "# z" := (Py.float_of_int z) (at level 5, format "# z").

(** Modelled from the spec: Pillow's [ImageDraw.ellipse] is missing.
    The ellipse inscribed in the box [x0, y0, x1, y1]: with [a] and [b]
    the two diameters, the pixels with
    [((2(x - x0) - a) / a)^2 + ((2(y - y0) - b) / b)^2 <= 1]. *)
Definition ellipse (xy : Z * Z * Z * Z) (x y : Z) : bool :=
  let '(x0, y0, x1, y1) := xy in
  let a := x1 - x0 in
  let b := y1 - y0 in
  (x0 <=? x) && (x <=? x1) && (y0 <=? y) && (y <=? y1) &&
  ((2 * (x - x0) - a) ^ 2 * b ^ 2 + (2 * (y - y0) - b) ^ 2 * a ^ 2
     <=? a ^ 2 * b ^ 2).

(** Modelled from the spec: Pillow's [ImageDraw.rectangle] is missing.
    The box between the corners, which are truncated to pixels. *)
Definition rectangle (xy : float * float * float * float) (x y : Z) : bool :=
  let '(x0, y0, x1, y1) := xy in
  (Py.int x0 <=? x) && (x <=? Py.int x1) &&
  (Py.int y0 <=? y) && (y <=? Py.int y1).

(** Modelled from the spec: the outline of Pillow's rectangle is
    missing.  The [width] outermost pixels on each side of the box. *)
Definition rectangle_border (xy : float * float * float * float)
  (width x y : Z) : bool :=
  let '(x0, y0, x1, y1) := xy in
  rectangle xy x y &&
  ((x <? Py.int x0 + width) || (Py.int x1 - width <? x) ||
   (y <? Py.int y0 + width) || (Py.int y1 - width <? y)).

(** On which side of the edge from [p] to [q] the pixel lies. *)
Definition side (p q : point) (x y : Z) : float :=
  ((q.1 - p.1) * (#y - p.2) - (q.2 - p.2) * (#x - p.1))%float.

Fixpoint edges (first : point) (xy : list point) : list (point * point) :=
  match xy with
  | [] => []
  | [p] => [(p, first)]
  | p :: (q :: _) as rest => (p, q) :: edges first rest
  end.

(** Modelled from the spec: Pillow's [ImageDraw.polygon] is missing.
    A convex polygon: the pixels that lie on one side of every edge. *)
Definition polygon (xy : list point) (x y : Z) : bool :=
  match xy with
  | [] => false
  | first :: _ =>
      let sides := map (λ e, side e.1 e.2 x y) (edges first xy) in
      forallb (λ s, PrimFloat.leb 0 s) sides ||
      forallb (λ s, PrimFloat.leb s 0) sides
  end.

(** Modelled from the spec: the outline of Pillow's polygon is missing.
    The pixels of the polygon with a neighbour outside of it. *)
Definition polygon_border (xy : list point) (x y : Z) : bool :=
  polygon xy x y &&
  negb (polygon xy (x - 1) y && polygon xy (x + 1) y &&
        polygon xy x (y - 1) && polygon xy x (y + 1)).

(** Modelled from the spec: Pillow's [ImageDraw.line] is missing.
    A segment of the given width: the pixels whose foot on the line from
    [p] to [q] lies between them, at most half the width away from it. *)
Definition segment (p q : point) (width x y : Z) : bool :=
  let dx := (q.1 - p.1)%float in
  let dy := (q.2 - p.2)%float in
  let len2 := (dx * dx + dy * dy)%float in
  let along := (dx * (#x - p.1) + dy * (#y - p.2))%float in
  let across := side p q x y in
  PrimFloat.leb 0 along && PrimFloat.leb along len2 &&
  PrimFloat.leb (#4 * (across * across)) (#(width * width) * len2).

Fixpoint polyline (xy : list point) (width x y : Z) : bool :=
  match xy with
  | p :: (q :: _) as rest => segment p q width x y || polyline rest width x y
  | _ => false
  end.

#[export] Instance rasterizer : Rasterizer := {
  ellipse_mask := ellipse;
  rectangle_mask := rectangle;
  rectangle_edge := rectangle_border;
  polygon_mask := polygon;
  polygon_edge := polygon_border;
  line_mask := polyline
}.

End Geometric.

(** ** Vocabulary of the specification *)

(** An image holds as many pixels as its size says. *)
Definition sized (img : image) : Prop :=
  0 <= im_width img ∧ 0 <= im_height img ∧
  length (im_data img) = Z.to_nat (im_width img * im_height img).

(** [(x, y)] is a pixel position of [img]. *)
Definition inside (img : image) (x y : Z) : Prop :=
  0 <= x < im_width img ∧ 0 <= y < im_height img.


Module Spec.

(** Written after the specification: the brown tone [(139, 69, 19)]
    times [intensity = (r + g + b) / (3 * 255)], in exact arithmetic,
    each channel rounded down to an integer; the alpha is kept. *)
Definition brown_scaled (c : color) : color :=
  let '(r, g, b, a) := c in
  (139 * (r + g + b) / (3 * 255),
   69 * (r + g + b) / (3 * 255),
   19 * (r + g + b) / (3 * 255),
   a).

(** The three float conversions of the loop body agree with
    [brown_scaled] at the channel sum [s]. *)
Definition channels_agree (s : Z) : bool :=
  let intensity := (Py.float_of_int s / Py.float_of_int (3 * 255))%float in
  (Py.int (Py.float_of_int 139 * intensity)%float =? 139 * s / (3 * 255)) &&
  (Py.int (Py.float_of_int 69 * intensity)%float =? 69 * s / (3 * 255)) &&
  (Py.int (Py.float_of_int 19 * intensity)%float =? 19 * s / (3 * 255)).

(** What the loop body leaves at a position whose source pixel is [src]
    and whose pixel in the new image was [old]. *)
Definition remapped (src old : color) : color :=
  let '(r, g, b, a) := src in
  if a =? 0 then old
  else if 0 <? a then
    let intensity := Recolorizer.intensity r g b in
    (Py.int (Py.float_of_int 139 * intensity)%float,
     Py.int (Py.float_of_int 69 * intensity)%float,
     Py.int (Py.float_of_int 19 * intensity)%float,
     a)
  else old.

(** The same, at position [(x, y)] of the source image [pixels]. *)
Definition remap_at (pixels : image) (x y : Z) (old : color) : color :=
  match getpixel pixels x y with
  | Some src => remapped src old
  | None => old
  end.

(** [new] can stand for the new image of [pixels]: it is as large. *)
Definition fits (pixels new : image) : Prop :=
  sized new ∧
  im_width new = im_width pixels ∧ im_height new = im_height pixels.

(** The kinds of shapes. *)
Inductive shape := circle | rectangle | polygon | line.

Definition kind (c : draw_call) : shape :=
  match c with
  | Ellipse _ _ => circle
  | Rectangle _ _ _ _ => rectangle
  | Polygon _ _ _ => polygon
  | Line _ _ _ => line
  end.

(** A face drawn as a polygon has four corners. *)
Definition four_cornered (c : draw_call) : Prop :=
  match c with
  | Polygon xy _ _ => length xy = 4%nat
  | _ => True
  end.

Definition shelf : list shape := [rectangle; polygon; polygon].
Definition box : list shape := [rectangle; polygon; polygon; line].

End Spec.

(** Images for the closed examples. *)
Module Example.

(** Three by three, fully transparent. *)
Definition blank : image := Image 3 3 (replicate 9 (0, 0, 0, 0)).

(** Two by two: white, black, a transparent and a faint pixel. *)
Definition sample : image :=
  Image 2 2
    [ (255, 255, 255, 255); (0, 0, 0, 255);
      (10, 20, 30, 0); (10, 20, 30, 7) ].

Definition disk : world :=
  World {[ "backup/icon.png" := sample ]} [].

End Example.

(** ** The top level of the two scripts *)

(** What a script leaves behind: it ran to its end, or an exception
    stopped it; either way with the files and the console as they were at
    that moment. *)
Inductive outcome :=
| Done (w : world)
| Raised (w : world).

Definition final (o : outcome) : world :=
  match o with Done w | Raised w => w end.

(** The line feed, [\n] in a Python string. *)
Definition newline : Ascii.ascii := Ascii.ascii_of_nat 10.

(** [os.path.join(a, *p)], a function of the platform's path module. *)
Class OsPath := {
  join : string → list string → string
}.

(** The lines below [update_icon] in [update_icons.py].  [update_icon]
    saves and prints last, so that when it raises the world is as it
    was. *)
Module UpdateIcons.
Section UpdateIcons.
Context {R : Rasterizer} {P : OsPath}.

Definition icons_dir : string :=
  "e:\Projects\storage-labels\storage-labels-ui\src\static\icons".

Definition backup_192 : string :=
  join icons_dir ["backup"; "storage-container-192x192.png"].
Definition icon_192 : string :=
  join icons_dir ["storage-container-192x192.png"].
Definition backup_512 : string :=
  join icons_dir ["backup"; "storage-container-512x512.png"].
Definition icon_512 : string :=
  join icons_dir ["storage-container-512x512.png"].

Definition main (w : world) : outcome :=
  match Recolorizer.update_icon backup_192 icon_192 w with
  | None => Raised w
  | Some w =>
      match Recolorizer.update_icon backup_512 icon_512 w with
      | None => Raised w
      | Some w =>
          let w := print (String newline "Icons updated successfully!") w in
          Done (print ("Original icons backed up to: "
                       +:+ join icons_dir ["backup"]) w)
      end
  end.

End UpdateIcons.
End UpdateIcons.

(** ** Further vocabulary *)

Module Scene.

(** The corners of a shape, as the script passes them. *)
Definition vertices (c : draw_call) : list point :=
  match c with
  | Ellipse _ _ => []
  | Rectangle (x0, y0, x1, y1) _ _ _ =>
      [(x0, y0); (x1, y0); (x1, y1); (x0, y1)]
  | Polygon xy _ _ => xy
  | Line xy _ _ => xy
  end.

(** The shelves and the boxes among the draw calls. *)
Definition shelves (size : Z) : list draw_call :=
  i ← Py.range Synthesizer.num_shelves; Synthesizer.draw_shelf size i.

Definition boxes_on (size : Z) (xs : list float) (y : float)
  : list (list draw_call) :=
  (λ box_x,
     Synthesizer.draw_3d_box size box_x y (Synthesizer.box_width size)
       (Synthesizer.box_height size) (Synthesizer.box_depth size)) <$> xs.

Definition boxes (size : Z) : list draw_call :=
  mjoin (boxes_on size (Synthesizer.boxes_shelf_1 size)
           (Synthesizer.shelf_1_y size)) ++
  mjoin (boxes_on size (Synthesizer.boxes_shelf_2 size)
           (Synthesizer.shelf_2_y size)) ++
  mjoin (boxes_on size (Synthesizer.boxes_shelf_3 size)
           (Synthesizer.shelf_3_y size)).

(** The inks of the shelves and of the boxes. *)
Definition shelf_inks : list color :=
  [Synthesizer.dark_brown; Synthesizer.box_outline;
   (121, 70, 34, 255); (81, 50, 24, 255)].

Definition box_inks : list color :=
  [Synthesizer.brown; Synthesizer.box_outline;
   (169, 89, 39, 255); (109, 59, 29, 255)].

(** A corner lies on the canvas. *)
Definition in_canvas (size : Z) (p : point) : bool :=
  PrimFloat.leb 0 p.1 && PrimFloat.leb p.1 (Py.float_of_int size) &&
  PrimFloat.leb 0 p.2 && PrimFloat.leb p.2 (Py.float_of_int size).

(** [upper] lies entirely above [lower] on the screen: every corner of
    the one has a smaller y than every corner of the other. *)
Definition above (upper lower : list draw_call) : bool :=
  forallb (λ u,
    forallb (λ l, PrimFloat.ltb u.2 l.2) (lower ≫= vertices))
    (upper ≫= vertices).

(** [left] lies entirely to the left of [right]. *)
Definition left_of (left right : list draw_call) : bool :=
  forallb (λ l,
    forallb (λ r, PrimFloat.ltb l.1 r.1) (right ≫= vertices))
    (left ≫= vertices).

(** Each shape of a row lies to the left of the next one. *)
Fixpoint in_a_row (row : list (list draw_call)) : bool :=
  match row with
  | b :: (b' :: _) as rest => left_of b b' && in_a_row rest
  | _ => true
  end.

(** The widths that the script passes agree with the integer quotients. *)
Definition width_agrees (size : Z) (c : draw_call) : bool :=
  match c with
  | Rectangle _ _ _ width => width =? Z.max 1 (size `div` 200)
  | Line _ _ width => width =? Z.max 1 (size `div` 250)
  | _ => true
  end.

(** The boxes of the second and of the third shelf stand clear of the
    shelf above them. *)
Definition boxes_clear (size : Z) : bool :=
  forallb (above (Synthesizer.draw_shelf size 0))
    (boxes_on size (Synthesizer.boxes_shelf_2 size)
       (Synthesizer.shelf_2_y size)) &&
  forallb (above (Synthesizer.draw_shelf size 1))
    (boxes_on size (Synthesizer.boxes_shelf_3 size)
       (Synthesizer.shelf_3_y size)).

(** The boxes of each shelf stand side by side. *)
Definition boxes_apart (size : Z) : bool :=
  in_a_row (boxes_on size (Synthesizer.boxes_shelf_1 size)
              (Synthesizer.shelf_1_y size)) &&
  in_a_row (boxes_on size (Synthesizer.boxes_shelf_2 size)
              (Synthesizer.shelf_2_y size)) &&
  in_a_row (boxes_on size (Synthesizer.boxes_shelf_3 size)
              (Synthesizer.shelf_3_y size)).

(** All of the above, at one size. *)
Definition well_laid_out (size : Z) : bool :=
  forallb (in_canvas size) (Synthesizer.draw_calls size ≫= vertices) &&
  forallb (width_agrees size) (Synthesizer.draw_calls size) &&
  boxes_clear size && boxes_apart size.

End Scene.

(** The components put together with a backslash, as [ntpath.join] does
    with plain names; the path module of the closed examples. *)
Module Windows.

Definition sep : string := String (Ascii.ascii_of_nat 92) "".

#[export] Instance os_path : OsPath := {
  join a p := foldl (λ path b, path +:+ sep +:+ b) a p
}.

End Windows.

(** One row of two faint pixels of the same brightness as the faint pixel
    of [Example.sample]. *)
Module Shades.

Definition tints : image := Image 2 1 [ (30, 20, 10, 7); (60, 0, 0, 7) ].

End Shades.

(** A disk with both backups, and one with the first backup only. *)
Module Backup.

Definition both : world :=
  World {[ UpdateIcons.backup_192 (P:=Windows.os_path) := Example.sample;
           UpdateIcons.backup_512 (P:=Windows.os_path) := Example.blank ]} [].

Definition first_only : world :=
  World {[ UpdateIcons.backup_192 (P:=Windows.os_path) := Example.sample ]} [].

End Backup.

(** ** The layout of the scene *)

(** The coordinates that [create_storage_icon] computes are arithmetic
    expressions in [size].  [Layout] writes them down as terms, so that
    one expression can be read twice: in floating point, operation by
    operation as Python evaluates it ([eval]), and in exact rational
    arithmetic ([exact]). *)
Module Layout.

Inductive term :=
| Size
| Num (n : Z)
| Lit (c : float)
| Add (a b : term)
| Sub (a b : term)
| Mul (a b : term)
| Div (a b : term).

(** The float that Python computes. *)
Fixpoint eval (size : Z) (t : term) : float :=
  match t with
  | Size => Py.float_of_int size
  | Num n => Py.float_of_int n
  | Lit c => c
  | Add a b => (eval size a + eval size b)%float
  | Sub a b => (eval size a - eval size b)%float
  | Mul a b => (eval size a * eval size b)%float
  | Div a b => (eval size a / eval size b)%float
  end.

(** The rational number that a finite float is (0 for an infinity or a
    NaN). *)
Definition exact_float (f : float) : Q :=
  match Prim2SF f with
  | S754_finite s m e =>
      let v := match e with
               | Z0 => Qmake (Z.pos m) 1
               | Zpos p => Qmake (Z.pos m * 2 ^ Z.pos p) 1
               | Zneg p => Qmake (Z.pos m) (2 ^ p)
               end in
      if s then Qopp v else v
  | _ => 0%Q
  end.

(** The value of a term without rounding, at a rational [size]. *)
Fixpoint exact (s : Q) (t : term) : Q :=
  match t with
  | Size => s
  | Num n => inject_Z n
  | Lit c => exact_float c
  | Add a b => (exact s a + exact s b)%Q
  | Sub a b => (exact s a - exact s b)%Q
  | Mul a b => (exact s a * exact s b)%Q
  | Div a b => (exact s a / exact s b)%Q
  end.

(** The degree of a term as a polynomial in [size], where it is
    homogeneous: sums need summands of one degree, a divisor has to be a
    constant. *)
Fixpoint degree (t : term) : option nat :=
  match t with
  | Size => Some 1%nat
  | Num _ | Lit _ => Some 0%nat
  | Add a b | Sub a b =>
      match degree a, degree b with
      | Some n, Some m => if decide (n = m) then Some n else None
      | _, _ => None
      end
  | Mul a b =>
      match degree a, degree b with
      | Some n, Some m => Some (n + m)%nat
      | _, _ => None
      end
  | Div a b =>
      match degree a, degree b with
      | Some n, Some 0%nat => Some n
      | _, _ => None
      end
  end.

Fixpoint power (k : Q) (n : nat) : Q :=
  match n with
  | O => 1%Q
  | S n => (k * power k n)%Q
  end.

(** The fraction of [size] that a term of degree 1 stands for. *)
Definition ratio (t : term) : Q := Qred (exact 1 t).

Fixpoint term_eqb (t u : term) : bool :=
  match t, u with
  | Size, Size => true
  | Num n, Num m => n =? m
  | Lit c, Lit d => PrimFloat.Leibniz.eqb c d
  | Add a b, Add a' b' | Sub a b, Sub a' b'
  | Mul a b, Mul a' b' | Div a b, Div a' b' =>
      term_eqb a a' && term_eqb b b'
  | _, _ => false
  end.

(** The terms of a list, each once. *)
Definition distinct (ts : list term) : list term :=
  foldr (λ t acc, if existsb (term_eqb t) acc then acc else t :: acc) [] ts.

(** The dimensions, lines 17 to 29 of the script. *)
Definition margin : term := Mul Size (Lit 0.15).
Definition content_width : term := Sub Size (Mul (Num 2) margin).
Definition content_height : term := Sub Size (Mul (Num 2) margin).
Definition shelf_thickness : term := Mul Size (Lit 0.04).
Definition shelf_spacing : term :=
  Div content_height (Num (Synthesizer.num_shelves + 1)).
Definition box_width : term := Mul Size (Lit 0.12).
Definition box_height : term := Mul Size (Lit 0.10).
Definition box_depth : term := Mul Size (Lit 0.06).

(** A front face [x0, y0, x1, y1], and a corner of a face. *)
Definition rect : Type := term * term * term * term.
Definition vertex : Type := term * term.

Definition top (r : rect) : term := r.1.1.2.
Definition bottom (r : rect) : term := r.2.

(** The front of shelf [i], for [i] = 0, 1, 2. *)
Definition shelf_y (i : Z) : term :=
  Add margin (Mul shelf_spacing (Num (i + 1))).

Definition shelf_front (i : Z) : rect :=
  (Sub margin (Mul Size (Lit 0.05)), shelf_y i,
   Add (Add margin content_width) (Mul Size (Lit 0.05)),
   Add (shelf_y i) shelf_thickness).

(** The front of a box of row [k], for [k] = 1, 2, 3, that stands
    [offset * size] to the right of the margin. *)
Definition box_y (k : Z) : term :=
  Sub (Add margin (Mul shelf_spacing (Num k))) box_height.

Definition box_front (k : Z) (offset : float) : rect :=
  let x := Add margin (Mul Size (Lit offset)) in
  (x, box_y k, Add x box_width, Add (box_y k) box_height).

Definition shelf_fronts : list rect := shelf_front <$> [0; 1; 2].

(** The rows of boxes: the number of the row and the offsets of its
    boxes. *)
Definition rows : list (Z * list float) :=
  [ (1, [0.05; 0.22; 0.39]%float);
    (2, [0.1; 0.32]%float);
    (3, [0.02; 0.2; 0.42]%float) ].

Definition box_fronts : list rect :=
  row ← rows; box_front row.1 <$> row.2.

(** How far the top and the side face recede from the front: half the
    depth to the right, three tenths of it upwards. *)
Definition recede_x : term := Mul box_depth (Lit 0.5).
Definition recede_y : term := Mul box_depth (Lit 0.3).

(** The four corners of a front face, clockwise from the top left. *)
Definition corners (r : rect) : list vertex :=
  let '(x0, y0, x1, y1) := r in [ (x0, y0); (x1, y0); (x1, y1); (x0, y1) ].

(** The top face: the parallelogram over the upper edge of the front. *)
Definition top_face (r : rect) : list vertex :=
  let '(x0, y0, x1, y1) := r in
  [ (x0, y0);
    (Add x0 recede_x, Sub y0 recede_y);
    (Add x1 recede_x, Sub y0 recede_y);
    (x1, y0) ].

(** The side face: the parallelogram beside the right edge of the
    front. *)
Definition side_face (r : rect) : list vertex :=
  let '(x0, y0, x1, y1) := r in
  [ (x1, y0);
    (Add x1 recede_x, Sub y0 recede_y);
    (Add x1 recede_x, Sub y1 recede_y);
    (x1, y1) ].

(** The tape across the front of a box. *)
Definition tape (r : rect) : list vertex :=
  let '(x0, y0, x1, y1) := r in
  [ (Add x0 (Mul box_width (Lit 0.2)), Add y0 (Mul box_height (Lit 0.4)));
    (Add x0 (Mul box_width (Lit 0.8)), Add y0 (Mul box_height (Lit 0.4))) ].

(** Every corner of every shelf and box, in the order of the draw
    calls, and their coordinates. *)
Definition vertices : list vertex :=
  (r ← shelf_fronts; corners r ++ top_face r ++ side_face r) ++
  (r ← box_fronts; corners r ++ top_face r ++ side_face r ++ tape r).

Definition coordinates : list term :=
  v ← vertices; [v.1; v.2].

Definition eval_rect (size : Z) (r : rect)
  : float * float * float * float :=
  let '(x0, y0, x1, y1) := r in
  (eval size x0, eval size y0, eval size x1, eval size y1).

Definition eval_vertex (size : Z) (v : vertex) : point :=
  (eval size v.1, eval size v.2).

(** The float [f] is the fraction [ratio t] of [size], up to the
    rounding of the few operations that computed it. *)
Definition tolerance : Q := 1 # (2 ^ 50).

Definition close (size : Z) (f : float) (t : term) : Prop :=
  (Qabs (exact_float f - inject_Z size * ratio t)
   <= inject_Z size * tolerance)%Q.

Definition within (size : Z) (t : term) (q : Q) : bool :=
  Qle_bool
    (Qabs (exact_float (eval size t) - inject_Z size * q))
    (inject_Z size * tolerance).

Definition proportional_upto (n : Z) (t : term) : bool :=
  let q := ratio t in forallb (λ size, within size t q) (seqZ 1 n).

End Layout.

(** The draw calls of a shelf and of a box, from their front faces. *)
Module Faces.

Definition three_faces (size : Z) (front top side : color) (r : Layout.rect)
  : list draw_call :=
  [ Rectangle (Layout.eval_rect size r) front Synthesizer.box_outline
      (Z.max 1 (Py.int (Py.float_of_int size * 0.005)%float));
    Polygon (Layout.eval_vertex size <$> Layout.top_face r)
      top Synthesizer.box_outline;
    Polygon (Layout.eval_vertex size <$> Layout.side_face r)
      side Synthesizer.box_outline ].

Definition tape (size : Z) (r : Layout.rect) : draw_call :=
  Line (Layout.eval_vertex size <$> Layout.tape r) Synthesizer.box_outline
    (Z.max 1 (Py.int (Py.float_of_int size * 0.004)%float)).

Definition shelf (size : Z) (r : Layout.rect) : list draw_call :=
  three_faces size Synthesizer.dark_brown (121, 70, 34, 255) (81, 50, 24, 255)
    r.

Definition box (size : Z) (r : Layout.rect) : list draw_call :=
  three_faces size Synthesizer.brown (169, 89, 39, 255) (109, 59, 29, 255) r
  ++ [tape size r].

End Faces.

(** The corners of the canvas, under the reference rasterizer. *)
Module Corners.

Definition corners (size : Z) : list (Z * Z) :=
  [ (0, 0); (size - 1, 0); (0, size - 1); (size - 1, size - 1) ].


End Corners.

(** ** Images: reading, writing and painting *)

Lemma wf_image_sized img : wf_image img = true → sized img.
Proof.
  unfold wf_image, sized. intros H.
  repeat (apply andb_prop in H as [H ?]). lia.
Qed.

Lemma wf_image_valid img x y c :
  wf_image img = true → getpixel img x y = Some c → valid_color c = true.
Proof.
  unfold wf_image, getpixel. intros H Hc.
  apply andb_prop in H as [_ H].
  destruct (offset img x y) as [i|]; simplify_eq/=.
  rewrite forallb_forall in H. apply H.
  apply list_elem_of_In, list_elem_of_lookup. eauto.
Qed.

Lemma offset_Some img x y i :
  offset img x y = Some i ↔
  inside img x y ∧ i = Z.to_nat (y * im_width img + x).
Proof.
  unfold offset, inside.
  destruct (0 <=? x) eqn:?, (x <? im_width img) eqn:?,
    (0 <=? y) eqn:?, (y <? im_height img) eqn:?; simpl;
    (split; [intros [= <-] | intros [? ->]]); try (split; [lia|done]);
    try done; lia.
Qed.

Lemma offset_inside img x y :
  inside img x y → offset img x y = Some (Z.to_nat (y * im_width img + x)).
Proof. intros. by apply offset_Some. Qed.

Lemma offset_lt img x y i :
  sized img → offset img x y = Some i → (i < length (im_data img))%nat.
Proof.
  intros (Hw & Hh & ->) [[??] ->]%offset_Some.
  assert (0 <= y * im_width img + x < im_width img * im_height img) by nia.
  lia.
Qed.

Lemma offset_same_size img img' x y :
  im_width img' = im_width img → im_height img' = im_height img →
  offset img' x y = offset img x y.
Proof. unfold offset. by intros -> ->. Qed.

Lemma offset_inj img x y x' y' i :
  offset img x y = Some i → offset img x' y' = Some i → x = x' ∧ y = y'.
Proof.
  intros [[??] ->]%offset_Some [[??] E]%offset_Some.
  apply Z2Nat.inj in E; [|nia..].
  assert (y = y') by nia. subst. lia.
Qed.

Lemma getpixel_inside img x y :
  sized img → inside img x y → is_Some (getpixel img x y).
Proof.
  intros Hs Hin. unfold getpixel.
  rewrite (offset_inside _ _ _ Hin). simpl.
  apply lookup_lt_is_Some, (offset_lt img x y); [done|].
  by apply offset_inside.
Qed.

Lemma getpixel_Some_inside img x y c :
  getpixel img x y = Some c → inside img x y.
Proof.
  unfold getpixel. destruct (offset img x y) eqn:E; [|done].
  intros _. by apply offset_Some in E as [? _].
Qed.

Lemma getpixel_Image_new w h c x y :
  0 <= x < w → 0 <= y < h → getpixel (Image_new w h c) x y = Some c.
Proof.
  intros Hx Hy. unfold getpixel.
  rewrite (offset_inside (Image_new w h c) x y) by done. simpl.
  apply lookup_replicate_2.
  assert (0 <= y * w + x < w * h) by nia. lia.
Qed.

Lemma sized_Image_new w h c : 0 <= w → 0 <= h → sized (Image_new w h c).
Proof. intros. repeat split; simpl; [done..|]. by rewrite length_replicate. Qed.

Lemma sized_paint covers ink img : sized img → sized (paint covers ink img).
Proof.
  intros (? & ? & E). repeat split; simpl; [done..|]. by rewrite length_imap.
Qed.

Lemma getpixel_paint covers ink img x y :
  getpixel (paint covers ink img) x y =
  (λ c, if covers x y then ink else c) <$> getpixel img x y.
Proof.
  unfold getpixel.
  rewrite (offset_same_size img (paint covers ink img)) by done.
  destruct (offset img x y) as [i|] eqn:E; [|done]. simpl.
  rewrite list_lookup_imap.
  apply offset_Some in E as [[??] ->].
  rewrite Z2Nat.id by nia.
  rewrite Z.add_comm, Z.mod_add, Z.div_add, Z.mod_small, Z.div_small by lia.
  done.
Qed.

Lemma putpixel_inside img x y c :
  sized img → inside img x y → is_Some (putpixel img x y c).
Proof.
  intros Hs Hin. unfold putpixel.
  destruct (getpixel_inside img x y Hs Hin) as [c' Hc']. unfold getpixel in Hc'.
  destruct (offset img x y); simplify_eq/=. rewrite Hc'. by eexists.
Qed.

Lemma putpixel_size img x y c img' :
  putpixel img x y c = Some img' →
  im_width img' = im_width img ∧ im_height img' = im_height img ∧
  length (im_data img') = length (im_data img).
Proof.
  unfold putpixel. intros H.
  destruct (offset img x y); simplify_eq/=.
  destruct (im_data img !! _); simplify_eq/=.
  by rewrite length_insert.
Qed.

Lemma getpixel_putpixel img x y c img' x' y' :
  putpixel img x y c = Some img' →
  getpixel img' x' y' =
  if decide (x' = x ∧ y' = y) then Some c else getpixel img x' y'.
Proof.
  unfold putpixel, getpixel. intros H.
  destruct (offset img x y) as [i|] eqn:Ei; simplify_eq/=.
  destruct (im_data img !! i) as [c0|] eqn:Ec; simplify_eq/=.
  unfold offset at 1. simpl. fold (offset img x' y').
  destruct (decide (x' = x ∧ y' = y)) as [[-> ->]|Hne].
  - rewrite Ei. simpl. apply list_lookup_insert_eq.
    by eapply lookup_lt_Some.
  - destruct (offset img x' y') as [j|] eqn:Ej; [|done]. simpl.
    apply list_lookup_insert_ne. intros ->.
    destruct (offset_inj _ _ _ _ _ _ Ej Ei). by apply Hne.
Qed.

(** ** Drawing *)

Section DrawingFacts.
Context {R : Rasterizer}.

Lemma draw_size img c :
  im_width (draw img c) = im_width img ∧
  im_height (draw img c) = im_height img ∧
  length (im_data (draw img c)) = length (im_data img).
Proof. destruct c; simpl; by rewrite ?length_imap. Qed.

Lemma draws_size calls img :
  im_width (foldl draw img calls) = im_width img ∧
  im_height (foldl draw img calls) = im_height img ∧
  length (im_data (foldl draw img calls)) = length (im_data img).
Proof.
  revert img. induction calls as [|c calls IH]; intros img; [done|]. simpl.
  destruct (IH (draw img c)) as (-> & -> & ->). apply draw_size.
Qed.

Lemma getpixel_draw img call x y c :
  getpixel img x y = Some c →
  ∃ c', getpixel (draw img call) x y = Some c' ∧
        if touches call x y then c' ∈ inks call else c' = c.
Proof.
  intros Hc. destruct call as [xy f|xy f o w|xy f o|xy f w]; simpl;
    rewrite ?getpixel_paint, Hc; simpl; eexists; (split; [done|]).
  - destruct (ellipse_mask _ _ _); [set_solver|done].
  - destruct (rectangle_mask _ _ _), (rectangle_edge _ _ _ _); simpl;
      first [done|set_solver].
  - destruct (polygon_mask _ _ _), (polygon_edge _ _ _); simpl;
      first [done|set_solver].
  - destruct (line_mask _ _ _ _); [set_solver|done].
Qed.

(** A pixel that no call touches keeps its colour. *)
Lemma getpixel_draws_untouched calls img x y c :
  getpixel img x y = Some c →
  Forall (λ call, touches call x y = false) calls →
  getpixel (foldl draw img calls) x y = Some c.
Proof.
  revert img. induction calls as [|call calls IH]; intros img Hc Hall; [done|].
  apply Forall_cons in Hall as [Hcall Hall]. simpl. apply IH; [|done].
  destruct (getpixel_draw img call x y c Hc) as (c' & -> & Hc').
  rewrite Hcall in Hc'. by subst.
Qed.

Lemma untouched_Forall calls x y :
  untouched calls x y = true →
  Forall (λ call, touches call x y = false) calls.
Proof.
  unfold untouched. rewrite forallb_forall, Forall_forall.
  intros H call Hcall%list_elem_of_In. by apply negb_true_iff, H.
Qed.

(** After some calls a pixel has the colour it had, or one of their inks. *)
Lemma getpixel_draws calls img x y c :
  getpixel img x y = Some c →
  ∃ c', getpixel (foldl draw img calls) x y = Some c' ∧
        (c' = c ∨ ∃ call, call ∈ calls ∧ c' ∈ inks call).
Proof.
  revert img c. induction calls as [|call calls IH]; intros img c Hc.
  { exists c. auto. }
  destruct (getpixel_draw img call x y c Hc) as (c1 & Hc1 & Hink).
  destruct (IH _ _ Hc1) as (c' & Hc' & Hor). exists c'. split; [done|].
  destruct Hor as [->|(call' & ? & ?)].
  - destruct (touches call x y); [|by left].
    right. exists call. split; [set_solver|done].
  - right. exists call'. split; [set_solver|done].
Qed.

Lemma draws_app img calls1 calls2 :
  foldl draw img (calls1 ++ calls2) =
  foldl draw (foldl draw img calls1) calls2.
Proof.
  revert img. induction calls1 as [|c calls1 IH]; intros img; [done|].
  simpl. apply IH.
Qed.

Lemma existsb_touches_false calls x y :
  existsb (λ call, touches call x y) calls = false →
  Forall (λ call, touches call x y = false) calls.
Proof.
  induction calls as [|c calls IH]; simpl; [by constructor|].
  intros [??]%orb_false_elim. constructor; auto.
Qed.

(** A pixel that some call touches shows an ink of one of the calls. *)
Lemma getpixel_draws_touched calls img x y c :
  getpixel img x y = Some c →
  existsb (λ call, touches call x y) calls = true →
  ∃ c' call, getpixel (foldl draw img calls) x y = Some c' ∧
    call ∈ calls ∧ c' ∈ inks call.
Proof.
  revert img c. induction calls as [|call calls IH]; intros img c Hc; [done|].
  simpl. intros Hex.
  destruct (getpixel_draw img call x y c Hc) as (c1 & Hc1 & Hink).
  destruct (existsb (λ call, touches call x y) calls) eqn:Hrest.
  - destruct (IH _ _ Hc1 eq_refl) as (c' & call' & ? & ? & ?).
    exists c', call'. split_and!; [done | by right | done].
  - rewrite orb_false_r in Hex. rewrite Hex in Hink.
    exists c1, call. split_and!; [|by left|done].
    apply getpixel_draws_untouched; [done|].
    by apply existsb_touches_false.
Qed.

Lemma untouched_false calls x y :
  untouched calls x y = false →
  existsb (λ call, touches call x y) calls = true.
Proof.
  unfold untouched. induction calls as [|c calls IH]; simpl; [done|].
  destruct (touches c x y); simpl; [done|]. apply IH.
Qed.

(** What one call does to a pixel. *)
Lemma getpixel_draw_ink img call x y c :
  getpixel img x y = Some c →
  getpixel (draw img call) x y = Some (default c (ink_at call x y)).
Proof.
  intros Hc. destruct call as [xy f|xy f o w|xy f o|xy f w]; simpl;
    rewrite ?getpixel_paint, Hc; simpl.
  - by destruct (ellipse_mask _ _ _).
  - by destruct (rectangle_mask _ _ _), (rectangle_edge _ _ _ _).
  - by destruct (polygon_mask _ _ _), (polygon_edge _ _ _).
  - by destruct (line_mask _ _ _ _).
Qed.

Lemma ink_at_touches call x y :
  touches call x y = true → ∃ c, ink_at call x y = Some c ∧ c ∈ inks call.
Proof.
  destruct call as [xy f|xy f o w|xy f o|xy f w]; simpl.
  - intros ->. exists f. split; [done|]. by left.
  - destruct (rectangle_edge _ _ _ _), (rectangle_mask _ _ _); simpl;
      try done; intros _; eexists; (split; [done|]).
    + right. by left.
    + right. by left.
    + by left.
  - destruct (polygon_edge _ _ _), (polygon_mask _ _ _); simpl;
      try done; intros _; eexists; (split; [done|]).
    + right. by left.
    + right. by left.
    + by left.
  - intros ->. exists f. split; [done|]. by left.
Qed.

(** The last call that touches a pixel decides its colour. *)
Lemma getpixel_draws_last before call after img x y c0 c :
  getpixel img x y = Some c0 →
  ink_at call x y = Some c →
  untouched after x y = true →
  getpixel (foldl draw img (before ++ call :: after)) x y = Some c.
Proof.
  intros Hc0 Hink Hafter. rewrite draws_app. simpl.
  destruct (getpixel_draws before img x y c0 Hc0) as (c1 & Hc1 & _).
  apply getpixel_draws_untouched; [|by apply untouched_Forall].
  rewrite (getpixel_draw_ink _ _ _ _ c1 Hc1). by rewrite Hink.
Qed.

End DrawingFacts.

(** ** The loops of the recolorizer *)

Section RecolorizerFacts.
Context {R : Rasterizer}.

Lemma remapped_idem src old :
  Spec.remapped src (Spec.remapped src old) = Spec.remapped src old.
Proof.
  destruct src as [[[r g] b] a]. unfold Spec.remapped.
  by destruct (a =? 0), (0 <? a).
Qed.

Lemma remap_at_idem pixels x y old :
  Spec.remap_at pixels x y (Spec.remap_at pixels x y old) =
  Spec.remap_at pixels x y old.
Proof.
  unfold Spec.remap_at. destruct (getpixel pixels x y); [|done].
  apply remapped_idem.
Qed.

Lemma fits_inside pixels new x y :
  Spec.fits pixels new → inside pixels x y → inside new x y.
Proof. intros (_ & Hw & Hh) ?. unfold inside. by rewrite Hw, Hh. Qed.

(** One turn of the inner loop rewrites the pixel at [(x, y)] and nothing
    else. *)
Lemma process_pixel_spec pixels new x y :
  Spec.fits pixels new → inside pixels x y → sized pixels →
  ∃ out, Recolorizer.process_pixel pixels y x new = Some out ∧
    Spec.fits pixels out ∧
    ∀ x' y', getpixel out x' y' =
      if decide (x' = x ∧ y' = y)
      then Spec.remap_at pixels x' y' <$> getpixel new x' y'
      else getpixel new x' y'.
Proof.
  intros Hfits Hin Hsized.
  destruct (getpixel_inside pixels x y Hsized Hin) as [src Hsrc].
  pose proof (fits_inside _ _ _ _ Hfits Hin) as Hin'.
  destruct Hfits as (Hs & Hw & Hh).
  destruct (getpixel_inside new x y Hs Hin') as [old Hold].
  assert (∀ out,
    (∀ x' y', getpixel out x' y' =
       if decide (x' = x ∧ y' = y) then Some (Spec.remapped src old)
       else getpixel new x' y') →
    ∀ x' y', getpixel out x' y' =
      if decide (x' = x ∧ y' = y)
      then Spec.remap_at pixels x' y' <$> getpixel new x' y'
      else getpixel new x' y') as Hkey.
  { intros out Hout x' y'. rewrite Hout.
    destruct (decide _) as [[-> ->]|]; [|done].
    unfold Spec.remap_at. by rewrite Hold, Hsrc. }
  unfold Recolorizer.process_pixel. rewrite Hsrc. simpl.
  destruct src as [[[r g] b] a]. unfold Spec.remapped in Hkey.
  destruct (a =? 0) eqn:Ha; [|destruct (0 <? a) eqn:Ha'].
  - exists new. split_and!; try done. apply Hkey. intros x' y'.
    destruct (decide _) as [[-> ->]|]; done.
  - match goal with
    | |- ∃ out, putpixel new x y ?c = Some out ∧ _ =>
        destruct (putpixel_inside new x y c Hs Hin') as [out Hout]
    end.
    exists out. split; [done|].
    destruct (putpixel_size _ _ _ _ _ Hout) as (Hw' & Hh' & Hl').
    split.
    { destruct Hs as (? & ? & Hlen).
      repeat split; rewrite ?Hw', ?Hh', ?Hl'; done. }
    apply Hkey. intros x' y'.
    by rewrite (getpixel_putpixel _ _ _ _ _ x' y' Hout).
  - exists new. split_and!; try done. apply Hkey. intros x' y'.
    destruct (decide _) as [[-> ->]|]; done.
Qed.

(** The inner loop over a row. *)
Lemma row_loop_spec pixels y xs new :
  Spec.fits pixels new → sized pixels →
  0 <= y < im_height pixels →
  Forall (λ x, 0 <= x < im_width pixels) xs →
  ∃ out, Py.for_each xs (Recolorizer.process_pixel pixels y) new = Some out ∧
    Spec.fits pixels out ∧
    ∀ x' y', getpixel out x' y' =
      if decide (y' = y ∧ x' ∈ xs)
      then Spec.remap_at pixels x' y' <$> getpixel new x' y'
      else getpixel new x' y'.
Proof.
  intros Hfits Hsized Hy Hxs. revert new Hfits.
  induction Hxs as [|x xs Hx Hxs IH]; intros new Hfits.
  { exists new. split_and!; try done. intros x' y'.
    destruct (decide _) as [[_ ?%elem_of_nil]|]; done. }
  destruct (process_pixel_spec pixels new x y Hfits) as (new' & E & Hfits' & H');
    [done..|].
  destruct (IH new' Hfits') as (out & Eout & Hfo & Hout).
  exists out. simpl. rewrite E. simpl. split_and!; try done.
  intros x' y'. rewrite Hout, !H'.
  pose proof (elem_of_cons xs x' x) as Hel.
  repeat case_decide; try done; try (exfalso; tauto).
  rewrite <- option_fmap_compose. apply option_fmap_ext.
  intros c. apply remap_at_idem.
Qed.

(** The two loops together. *)
Lemma pixel_loops_spec pixels ys new :
  Spec.fits pixels new → sized pixels →
  Forall (λ y, 0 <= y < im_height pixels) ys →
  ∃ out,
    Py.for_each ys
      (λ y, Py.for_each (Py.range (im_width pixels))
              (Recolorizer.process_pixel pixels y)) new = Some out ∧
    Spec.fits pixels out ∧
    ∀ x' y', getpixel out x' y' =
      if decide (y' ∈ ys ∧ 0 <= x' < im_width pixels)
      then Spec.remap_at pixels x' y' <$> getpixel new x' y'
      else getpixel new x' y'.
Proof.
  intros Hfits Hsized Hys. revert new Hfits.
  induction Hys as [|y ys Hy Hys IH]; intros new Hfits.
  { exists new. by split_and!. }
  destruct (row_loop_spec pixels y (Py.range (im_width pixels)) new)
    as (new' & E & Hfits' & H'); [done..| |].
  { apply Forall_forall. intros x. unfold Py.range.
    rewrite elem_of_seqZ. lia. }
  destruct (IH new' Hfits') as (out & Eout & Hfo & Hout).
  exists out. simpl. rewrite E. simpl. split_and!; try done.
  intros x' y'. rewrite Hout, !H'.
  assert (x' ∈ Py.range (im_width pixels) ↔ 0 <= x' < im_width pixels) as Hr.
  { unfold Py.range. rewrite elem_of_seqZ. lia. }
  pose proof (elem_of_cons ys y' y) as Hel.
  repeat case_decide; try done; try (exfalso; tauto).
  rewrite <- option_fmap_compose. apply option_fmap_ext.
  intros c. apply remap_at_idem.
Qed.

Lemma sized_background w h :
  0 <= w → 0 <= h → sized (Recolorizer.background w h).
Proof.
  intros. unfold Recolorizer.background. simpl.
  by apply sized_paint, sized_Image_new.
Qed.

(** The recolorizer returns an image of the size of its input, in which
    every pixel is the pixel of the background, remapped. *)
Lemma update_icon_image_spec img :
  sized img →
  ∃ out, Recolorizer.update_icon_image img = Some out ∧
    Spec.fits img out ∧
    ∀ x y, inside img x y →
      getpixel out x y =
      Spec.remap_at img x y <$>
        getpixel (Recolorizer.background (im_width img) (im_height img)) x y.
Proof.
  intros Hs. pose proof Hs as (Hw & Hh & Hl).
  destruct (pixel_loops_spec img (Py.range (im_height img))
              (Recolorizer.background (im_width img) (im_height img)))
    as (out & E & Hfits & Hout); [|done| |].
  { split; [by apply sized_background|done]. }
  { apply Forall_forall. intros y. unfold Py.range.
    rewrite elem_of_seqZ. lia. }
  exists out. split_and!; try done.
  intros x y [Hx Hy]. rewrite Hout.
  destruct (decide _) as [|Hn]; [done|].
  exfalso. apply Hn. unfold Py.range. rewrite elem_of_seqZ. lia.
Qed.

End RecolorizerFacts.

(** ** The arithmetic of the remapping *)

(** The float computation of the loop body is exact on every channel sum
    an RGBA pixel can have: checked on each of the 766 sums. *)
Lemma channels_agree_all : forallb Spec.channels_agree (seqZ 0 766) = true.
Proof. vm_compute. reflexivity. Qed.

Lemma channels_agree_range s : 0 <= s <= 765 → Spec.channels_agree s = true.
Proof.
  intros Hs. pose proof channels_agree_all as Hall.
  rewrite forallb_forall in Hall. apply Hall.
  apply list_elem_of_In, elem_of_seqZ. lia.
Qed.

Lemma valid_color_range r g b a :
  valid_color (r, g, b, a) = true →
  0 <= r <= 255 ∧ 0 <= g <= 255 ∧ 0 <= b <= 255 ∧ 0 <= a <= 255.
Proof.
  unfold valid_color. intros H.
  repeat (apply andb_prop in H as [H ?]). lia.
Qed.

(** On a source pixel that is not transparent, the loop body computes the
    brown tone scaled by the intensity. *)
Lemma remapped_brown_scaled src old :
  valid_color src = true → 0 < alpha src →
  Spec.remapped src old = Spec.brown_scaled src.
Proof.
  destruct src as [[[r g] b] a]. intros Hv Ha.
  apply valid_color_range in Hv. unfold alpha in Ha. simpl in Ha.
  unfold Spec.remapped, Spec.brown_scaled.
  destruct (Z.eqb_spec a 0) as [->|_]; [lia|].
  destruct (Z.ltb_spec 0 a) as [_|?]; [|lia].
  assert (Spec.channels_agree (r + g + b) = true) as Hc
    by (apply channels_agree_range; lia).
  unfold Spec.channels_agree in Hc.
  apply andb_prop in Hc as [Hc Hb%Z.eqb_eq].
  apply andb_prop in Hc as [Hr%Z.eqb_eq Hg%Z.eqb_eq].
  unfold Recolorizer.intensity. by rewrite Hr, Hg, Hb.
Qed.

Lemma brown_scaled_bounds r g b a :
  0 <= r + g + b <= 765 →
  let '(r', g', b', a') := Spec.brown_scaled (r, g, b, a) in
  0 <= b' ∧ b' <= g' ∧ g' <= r' ∧ r' <= 139 ∧ g' <= 69 ∧ b' <= 19 ∧ a' = a.
Proof.
  intros Hs. simpl. change (3 * 255) with 765.
  split_and!; try done.
  - apply Z.div_pos; lia.
  - apply Z.div_le_mono; lia.
  - apply Z.div_le_mono; lia.
  - apply Z.div_le_upper_bound; lia.
  - apply Z.div_le_upper_bound; lia.
  - apply Z.div_le_upper_bound; lia.
Qed.

(** ** The scene of the synthesizer *)

Lemma foldl_draw_cons `{R : Rasterizer} img call calls :
  foldl draw img (call :: calls) = foldl draw (draw img call) calls.
Proof. done. Qed.

Lemma draw_shelf_inks size i :
  Forall (λ call, Forall (λ c, alpha c = 255) (inks call))
    (Synthesizer.draw_shelf size i).
Proof. unfold Synthesizer.draw_shelf. repeat constructor. Qed.

Lemma draw_3d_box_inks size x y w h d :
  Forall (λ call, Forall (λ c, alpha c = 255) (inks call))
    (Synthesizer.draw_3d_box size x y w h d).
Proof. unfold Synthesizer.draw_3d_box. repeat constructor. Qed.

(** Every ink of the synthesizer is opaque. *)
Lemma draw_calls_inks size :
  Forall (λ call, Forall (λ c, alpha c = 255) (inks call))
    (Synthesizer.draw_calls size).
Proof.
  unfold Synthesizer.draw_calls. apply Forall_cons. split.
  { repeat constructor. }
  rewrite !Forall_app. split_and!; apply Forall_bind, Forall_forall; intros;
    first [apply draw_shelf_inks | apply draw_3d_box_inks].
Qed.

(** A pixel that no call of the synthesizer touches keeps the base
    fill. *)
Lemma untouched_stays_transparent `{R : Rasterizer} size x y :
  0 <= x < size → 0 <= y < size →
  untouched (Synthesizer.draw_calls size) x y = true →
  getpixel (Synthesizer.create_storage_icon_image size) x y =
  Some Synthesizer.transparent.
Proof.
  intros Hx Hy Huntouched.
  apply getpixel_draws_untouched; [|by apply untouched_Forall].
  by apply getpixel_Image_new.
Qed.

Lemma draw_calls_circle size :
  ∃ scene, Synthesizer.draw_calls size = Synthesizer.circle size :: scene.
Proof. by eexists. Qed.

(** A pixel that some call of the synthesizer touches is opaque. *)
Lemma touched_is_opaque `{R : Rasterizer} size x y :
  0 <= x < size → 0 <= y < size →
  untouched (Synthesizer.draw_calls size) x y = false →
  ∃ c, getpixel (Synthesizer.create_storage_icon_image size) x y = Some c ∧
       alpha c = 255.
Proof.
  intros Hx Hy Htouched.
  destruct (getpixel_draws_touched (Synthesizer.draw_calls size)
              (Image_new size size Synthesizer.transparent) x y
              Synthesizer.transparent)
    as (c & call & Hc & Hcall & Hink);
    [by apply getpixel_Image_new | by apply untouched_false |].
  exists c. split; [done|].
  pose proof (draw_calls_inks size) as Hinks.
  rewrite Forall_forall in Hinks. specialize (Hinks call Hcall).
  rewrite Forall_forall in Hinks. by apply Hinks.
Qed.

(** ** The layout of the scene *)

(** The terms of [Layout] are the expressions of the script: evaluated
    in floating point they give its draw calls. *)
Lemma draw_calls_faces size :
  Synthesizer.draw_calls size =
  Synthesizer.circle size ::
  (Layout.shelf_fronts ≫= Faces.shelf size) ++
  (Layout.box_fronts ≫= Faces.box size).
Proof. reflexivity. Qed.

Lemma draw_calls_vertices size :
  Synthesizer.draw_calls size ≫= Scene.vertices =
  Layout.eval_vertex size <$> Layout.vertices.
Proof. reflexivity. Qed.

Lemma power_add k n m :
  (Layout.power k (n + m) == Layout.power k n * Layout.power k m)%Q.
Proof.
  induction n as [|n IH]; simpl; [ring|]. rewrite IH. ring.
Qed.

(** A term of degree [n] is homogeneous of degree [n] in [size]. *)
Lemma exact_homogeneous t :
  ∀ n, Layout.degree t = Some n →
  ∀ k s s' : Q, (s' == k * s)%Q →
  (Layout.exact s' t == Layout.power k n * Layout.exact s t)%Q.
Proof.
  induction t as [|c|c|a IHa b IHb|a IHa b IHb|a IHa b IHb|a IHa b IHb];
    simpl; intros n Hn k s s' Hs.
  - injection Hn as <-. simpl. rewrite Hs. ring.
  - injection Hn as <-. simpl. ring.
  - injection Hn as <-. simpl. ring.
  - destruct (Layout.degree a) as [na|]; [|done].
    destruct (Layout.degree b) as [nb|]; [|done].
    case_decide; [|done]. injection Hn as <-. subst nb.
    rewrite (IHa _ eq_refl k s s' Hs), (IHb _ eq_refl k s s' Hs). ring.
  - destruct (Layout.degree a) as [na|]; [|done].
    destruct (Layout.degree b) as [nb|]; [|done].
    case_decide; [|done]. injection Hn as <-. subst nb.
    rewrite (IHa _ eq_refl k s s' Hs), (IHb _ eq_refl k s s' Hs). ring.
  - destruct (Layout.degree a) as [na|]; [|done].
    destruct (Layout.degree b) as [nb|]; [|done].
    injection Hn as <-.
    rewrite (IHa _ eq_refl k s s' Hs), (IHb _ eq_refl k s s' Hs), power_add.
    ring.
  - destruct (Layout.degree a) as [na|]; [|done].
    destruct (Layout.degree b) as [[|nb]|]; [|done|done].
    injection Hn as <-.
    rewrite (IHa _ eq_refl k s s' Hs), (IHb _ eq_refl k s s' Hs). simpl.
    unfold Qdiv. rewrite Qmult_1_l. ring.
Qed.

Lemma exact_ratio t s :
  Layout.degree t = Some 1%nat →
  (Layout.exact s t == s * Layout.ratio t)%Q.
Proof.
  intros Ht. unfold Layout.ratio. rewrite Qred_correct.
  rewrite (exact_homogeneous t 1 Ht s 1%Q s); [simpl; ring|ring].
Qed.

Lemma coordinates_degree :
  Forall (λ t, Layout.degree t = Some 1%nat) Layout.coordinates.
Proof.
  apply Forall_forall. intros t Ht.
  assert (forallb (λ t, bool_decide (Layout.degree t = Some 1%nat))
            Layout.coordinates = true) as Hall by (vm_compute; reflexivity).
  rewrite forallb_forall in Hall.
  eapply bool_decide_eq_true_1, Hall. by apply list_elem_of_In.
Qed.

Lemma term_eqb_eq t u : Layout.term_eqb t u = true → t = u.
Proof.
  revert u.
  induction t as [|n|c|a IHa b IHb|a IHa b IHb|a IHa b IHb|a IHa b IHb];
    intros [|m|d|a' b'|a' b'|a' b'|a' b']; simpl; try done.
  - by intros ->%Z.eqb_eq.
  - by intros ->%FloatAxioms.Leibniz.eqb_spec.
  - intros [->%IHa ->%IHb]%andb_prop. done.
  - intros [->%IHa ->%IHb]%andb_prop. done.
  - intros [->%IHa ->%IHb]%andb_prop. done.
  - intros [->%IHa ->%IHb]%andb_prop. done.
Qed.

Lemma distinct_covers ts t : t ∈ ts → t ∈ Layout.distinct ts.
Proof.
  induction ts as [|u ts IH]; simpl; [done|].
  intros [->|Ht]%elem_of_cons.
  - destruct (existsb (Layout.term_eqb u) (Layout.distinct ts)) eqn:E.
    + apply existsb_exists in E as (u' & Hu' & ->%term_eqb_eq).
      by apply list_elem_of_In.
    + by left.
  - destruct (existsb _ _); [|right]; by apply IH.
Qed.

(** The floats against the fractions, for every coordinate and every
    size up to 512. *)
Lemma proportional_all :
  forallb (Layout.proportional_upto 512) (Layout.distinct Layout.coordinates)
  = true.
Proof. vm_cast_no_check (eq_refl true). Qed.

Lemma proportional_range size t :
  1 <= size <= 512 → t ∈ Layout.coordinates →
  Layout.close size (Layout.eval size t) t.
Proof.
  intros Hsize Ht%distinct_covers. pose proof proportional_all as Hall.
  rewrite forallb_forall in Hall.
  specialize (Hall t). unfold Layout.proportional_upto in Hall.
  rewrite <- list_elem_of_In in Hall. specialize (Hall Ht).
  rewrite forallb_forall in Hall. apply Qle_bool_iff, (Hall size).
  apply list_elem_of_In, elem_of_seqZ. lia.
Qed.

(** Without rounding, the boxes of row [k] stand on the [k]-th shelf. *)
Lemma boxes_on_shelves s :
  Forall (λ row,
    Forall (λ offset,
      (Layout.exact s (Layout.bottom (Layout.box_front row.1 offset)) ==
       Layout.exact s (Layout.top (Layout.shelf_front (row.1 - 1))))%Q)
      row.2)
    Layout.rows.
Proof.
  unfold Layout.rows.
  repeat (first [apply Forall_nil_2 | apply Forall_cons_2]);
    cbn [Layout.exact Layout.bottom Layout.top Layout.box_front
         Layout.shelf_front Layout.box_y Layout.shelf_y snd fst].
  all: repeat match goal with
       | |- context [inject_Z ?z] =>
           progress (let z' := eval vm_compute in z in
                     change (inject_Z z) with (inject_Z z'))
       end.
  all: ring.
Qed.

(** ** The corners of the canvas *)






(** * The properties of the specification *)

(** ** The recolorizer *)

(** C1.  For every source pixel with alpha > 0, the output pixel's RGB is
    the brown tone (139, 69, 19) scaled by the intensity
    (r + g + b) / (3 * 255) of that source pixel, each channel rounded
    (down) to an integer, and its alpha is the source pixel's alpha.  The
    recolorizer returns, and the float arithmetic of the script agrees
    with the exact quotient. *)
Theorem recolored_pixel_is_brown_scaled_by_intensity
    `{R : Rasterizer} img x y r g b a :
  wf_image img = true →
  getpixel img x y = Some (r, g, b, a) →
  0 < a →
  ∃ out, Recolorizer.update_icon_image img = Some out ∧
    getpixel out x y =
    Some (139 * (r + g + b) / (3 * 255),
          69 * (r + g + b) / (3 * 255),
          19 * (r + g + b) / (3 * 255),
          a).
Proof.
  intros Hwf Hsrc Ha.
  pose proof (wf_image_sized _ Hwf) as Hs.
  pose proof (getpixel_Some_inside _ _ _ _ Hsrc) as Hin.
  destruct (update_icon_image_spec img Hs) as (out & E & Hfits & Hout).
  exists out. split; [done|]. rewrite (Hout _ _ Hin).
  destruct (getpixel_inside
    (Recolorizer.background (im_width img) (im_height img)) x y) as [old ->].
  { destruct Hs as (? & ? & _). by apply sized_background. }
  { done. }
  simpl. unfold Spec.remap_at. rewrite Hsrc. f_equal.
  apply (remapped_brown_scaled (r, g, b, a)); [|done].
  by apply (wf_image_valid img x y).
Qed.

Lemma recolored_pixel_is_brown_scaled_by_intensity_witness :
  wf_image Example.sample = true ∧
  getpixel Example.sample 1 1 = Some (10, 20, 30, 7) ∧
  0 < 7 ∧
  ∃ out,
    Recolorizer.update_icon_image (R:=Geometric.rasterizer) Example.sample
    = Some out ∧
    getpixel out 1 1 =
    Some (139 * (10 + 20 + 30) / (3 * 255),
          69 * (10 + 20 + 30) / (3 * 255),
          19 * (10 + 20 + 30) / (3 * 255),
          7).
Proof.
  split_and!; [reflexivity | reflexivity | lia |].
  apply recolored_pixel_is_brown_scaled_by_intensity;
    [reflexivity | reflexivity | lia].
Defined.

(** C2, as the specification states it, fails: a position whose source
    pixel is transparent and which lies inside the background disc does
    not stay transparent.  In the middle of a fully transparent three by
    three image the output is the opaque light red of the disc. *)
Lemma transparent_source_inside_disc_is_painted :
  getpixel Example.blank 1 1 = Some (0, 0, 0, 0) ∧
  ∃ out,
    Recolorizer.update_icon_image (R:=Geometric.rasterizer) Example.blank
    = Some out ∧
    getpixel out 1 1 = Some (255, 179, 186, 255) ∧
    ¬ (∃ c, getpixel out 1 1 = Some c ∧ alpha c = 0).
Proof.
  split; [reflexivity|]. eexists. split; [vm_compute; reflexivity|].
  split; [reflexivity|]. intros (c & Hc & Ha).
  vm_compute in Hc. injection Hc as <-. discriminate Ha.
Qed.

(** C2, amended.  At a position whose source pixel has alpha = 0, the
    output pixel is what the background composition put there: outside the
    background disc the alpha remains 0 and the RGB is that of the
    transparent base fill; inside the disc the pixel is the disc's light
    red (255, 179, 186, 255). *)
Theorem transparent_source_shows_background
    `{R : Rasterizer} img x y r g b :
  wf_image img = true →
  getpixel img x y = Some (r, g, b, 0) →
  ∃ out, Recolorizer.update_icon_image img = Some out ∧
    getpixel out x y =
    Some (if ellipse_mask (0, 0, im_width img, im_height img) x y
          then Recolorizer.light_red
          else Recolorizer.transparent).
Proof.
  intros Hwf Hsrc.
  pose proof (wf_image_sized _ Hwf) as Hs.
  pose proof (getpixel_Some_inside _ _ _ _ Hsrc) as Hin.
  destruct (update_icon_image_spec img Hs) as (out & E & Hfits & Hout).
  exists out. split; [done|]. rewrite (Hout _ _ Hin).
  unfold Recolorizer.background, Recolorizer.circle_margin. simpl.
  rewrite getpixel_paint, getpixel_Image_new, !Z.sub_0_r by apply Hin.
  simpl. unfold Spec.remap_at. by rewrite Hsrc.
Qed.

Lemma transparent_source_shows_background_witness :
  wf_image Example.sample = true ∧
  getpixel Example.sample 0 1 = Some (10, 20, 30, 0) ∧
  ∃ out,
    Recolorizer.update_icon_image (R:=Geometric.rasterizer) Example.sample
    = Some out ∧
    getpixel out 0 1 =
    Some (if Geometric.ellipse (0, 0, 2, 2) 0 1
          then Recolorizer.light_red
          else Recolorizer.transparent).
Proof.
  split_and!; [reflexivity | reflexivity |].
  apply (transparent_source_shows_background (R:=Geometric.rasterizer)
           Example.sample 0 1 10 20 30); reflexivity.
Defined.

(** C3.  At a position whose source pixel has alpha = 0 the remapping
    step writes nothing: the loop body returns the new image as it got
    it, and after both loops the output holds, at that position, exactly
    the value that the background composition left there. *)
Theorem transparent_source_not_remapped
    `{R : Rasterizer} img x y r g b :
  wf_image img = true →
  getpixel img x y = Some (r, g, b, 0) →
  (∀ new_pixels,
     Recolorizer.process_pixel img y x new_pixels = Some new_pixels) ∧
  ∃ out, Recolorizer.update_icon_image img = Some out ∧
    getpixel out x y =
    getpixel (Recolorizer.background (im_width img) (im_height img)) x y.
Proof.
  intros Hwf Hsrc. split.
  { intros new_pixels. unfold Recolorizer.process_pixel. by rewrite Hsrc. }
  pose proof (wf_image_sized _ Hwf) as Hs.
  pose proof (getpixel_Some_inside _ _ _ _ Hsrc) as Hin.
  destruct (update_icon_image_spec img Hs) as (out & E & Hfits & Hout).
  exists out. split; [done|]. rewrite (Hout _ _ Hin).
  unfold Spec.remap_at. rewrite Hsrc. simpl.
  by destruct (getpixel (Recolorizer.background _ _) x y).
Qed.

Lemma transparent_source_not_remapped_witness :
  wf_image Example.blank = true ∧
  getpixel Example.blank 2 0 = Some (0, 0, 0, 0) ∧
  (∀ new_pixels,
     Recolorizer.process_pixel Example.blank 0 2 new_pixels
     = Some new_pixels) ∧
  ∃ out,
    Recolorizer.update_icon_image (R:=Geometric.rasterizer) Example.blank
    = Some out ∧
    getpixel out 2 0 =
    getpixel (Recolorizer.background (R:=Geometric.rasterizer) 3 3) 2 0.
Proof.
  split_and!; [reflexivity | reflexivity | |];
    apply (transparent_source_not_remapped (R:=Geometric.rasterizer)
             Example.blank 2 0 0 0 0); reflexivity.
Defined.

(** C7.  For a source pixel equal to fully opaque white
    (255, 255, 255, 255) the intensity evaluates to exactly 1.0, and the
    corresponding output pixel is exactly (139, 69, 19, 255). *)
Theorem white_pixel_maps_to_brown `{R : Rasterizer} img x y :
  wf_image img = true →
  getpixel img x y = Some (255, 255, 255, 255) →
  Recolorizer.intensity 255 255 255 = 1%float ∧
  ∃ out, Recolorizer.update_icon_image img = Some out ∧
    getpixel out x y = Some (139, 69, 19, 255).
Proof.
  intros Hwf Hsrc. split; [vm_compute; reflexivity|].
  pose proof (wf_image_sized _ Hwf) as Hs.
  pose proof (getpixel_Some_inside _ _ _ _ Hsrc) as Hin.
  destruct (update_icon_image_spec img Hs) as (out & E & Hfits & Hout).
  exists out. split; [done|]. rewrite (Hout _ _ Hin).
  destruct (getpixel_inside
    (Recolorizer.background (im_width img) (im_height img)) x y) as [old ->].
  { destruct Hs as (? & ? & _). by apply sized_background. }
  { done. }
  simpl. unfold Spec.remap_at. rewrite Hsrc.
  vm_compute. reflexivity.
Qed.

Lemma white_pixel_maps_to_brown_witness :
  wf_image Example.sample = true ∧
  getpixel Example.sample 0 0 = Some (255, 255, 255, 255) ∧
  Recolorizer.intensity 255 255 255 = 1%float ∧
  ∃ out,
    Recolorizer.update_icon_image (R:=Geometric.rasterizer) Example.sample
    = Some out ∧
    getpixel out 0 0 = Some (139, 69, 19, 255).
Proof.
  split_and!; [reflexivity | reflexivity | |];
    apply (white_pixel_maps_to_brown (R:=Geometric.rasterizer)
             Example.sample 0 0); reflexivity.
Defined.

(** C8.  For every input image the recolorizer's output image has
    exactly the width and the height of the input image: the run
    succeeds, and the file it writes holds an image of that size. *)
Theorem recolorizer_preserves_size
    `{R : Rasterizer} (w : world) (input_path output_path : string) img :
  files w !! input_path = Some img →
  wf_image img = true →
  ∃ w' out,
    Recolorizer.update_icon input_path output_path w = Some w' ∧
    files w' !! output_path = Some out ∧
    im_width out = im_width img ∧ im_height out = im_height img.
Proof.
  intros Hfile Hwf.
  pose proof (wf_image_sized _ Hwf) as Hs.
  destruct (update_icon_image_spec img Hs) as (out & E & Hfits & _).
  unfold Recolorizer.update_icon. rewrite Hfile. simpl. rewrite E. simpl.
  eexists _, out. split; [done|]. simpl.
  split; [apply lookup_insert_eq|]. by destruct Hfits as (_ & ? & ?).
Qed.

Lemma recolorizer_preserves_size_witness :
  files Example.disk !! "backup/icon.png" = Some Example.sample ∧
  wf_image Example.sample = true ∧
  ∃ w' out,
    Recolorizer.update_icon (R:=Geometric.rasterizer)
      "backup/icon.png" "icon.png" Example.disk = Some w' ∧
    files w' !! "icon.png" = Some out ∧
    im_width out = im_width Example.sample ∧
    im_height out = im_height Example.sample.
Proof.
  split_and!; [reflexivity | reflexivity |].
  apply recolorizer_preserves_size; reflexivity.
Defined.

(** C9.  For every remapped output pixel (every position whose source
    pixel has alpha > 0) the output channels satisfy R >= G >= B with
    R <= 139, G <= 69 and B <= 19: the pixel lies on the truncated brown
    ray and never exceeds the base brown tone. *)
Theorem recolored_pixel_within_brown_ray
    `{R : Rasterizer} img x y r g b a :
  wf_image img = true →
  getpixel img x y = Some (r, g, b, a) →
  0 < a →
  ∃ out r' g' b' a',
    Recolorizer.update_icon_image img = Some out ∧
    getpixel out x y = Some (r', g', b', a') ∧
    r' >= g' ∧ g' >= b' ∧ b' >= 0 ∧ r' <= 139 ∧ g' <= 69 ∧ b' <= 19.
Proof.
  intros Hwf Hsrc Ha.
  pose proof (wf_image_sized _ Hwf) as Hs.
  pose proof (getpixel_Some_inside _ _ _ _ Hsrc) as Hin.
  pose proof (wf_image_valid _ _ _ _ Hwf Hsrc) as Hv.
  destruct (update_icon_image_spec img Hs) as (out & E & Hfits & Hout).
  destruct (getpixel_inside
    (Recolorizer.background (im_width img) (im_height img)) x y)
    as [old Hold].
  { destruct Hs as (? & ? & _). by apply sized_background. }
  { done. }
  pose proof (Hout _ _ Hin) as Hpx. rewrite Hold in Hpx. simpl in Hpx.
  unfold Spec.remap_at in Hpx. rewrite Hsrc in Hpx.
  rewrite (remapped_brown_scaled (r, g, b, a)) in Hpx by done.
  pose proof (brown_scaled_bounds r g b a) as Hb.
  apply valid_color_range in Hv.
  destruct (Spec.brown_scaled (r, g, b, a)) as [[[r' g'] b'] a'].
  exists out, r', g', b', a'. split; [done|]. split; [done|]. lia.
Qed.

Lemma recolored_pixel_within_brown_ray_witness :
  wf_image Example.sample = true ∧
  getpixel Example.sample 1 1 = Some (10, 20, 30, 7) ∧
  0 < 7 ∧
  ∃ out r' g' b' a',
    Recolorizer.update_icon_image (R:=Geometric.rasterizer) Example.sample
    = Some out ∧
    getpixel out 1 1 = Some (r', g', b', a') ∧
    r' >= g' ∧ g' >= b' ∧ b' >= 0 ∧ r' <= 139 ∧ g' <= 69 ∧ b' <= 19.
Proof.
  split_and!; [reflexivity | reflexivity | lia |].
  apply (recolored_pixel_within_brown_ray (R:=Geometric.rasterizer)
           Example.sample 1 1 10 20 30 7); [reflexivity | reflexivity | lia].
Defined.

(** ** The synthesizer *)

(** C4.  For every size > 0 the synthesizer produces an image of exactly
    size by size pixels, in which every pixel inside the background
    circle has alpha = 255 and only the padding outside the circle is
    fully transparent: a pixel that no shape touches, which lies outside
    the circle, still has the transparent base fill (0, 0, 0, 0), and
    every other pixel has alpha = 255. *)
Theorem synthesizer_size_and_opaque_circle `{R : Rasterizer} size :
  0 < size →
  let img := Synthesizer.create_storage_icon_image size in
  im_width img = size ∧ im_height img = size ∧
  length (im_data img) = Z.to_nat (size * size) ∧
  ∀ x y, 0 <= x < size → 0 <= y < size →
    ∃ c, getpixel img x y = Some c ∧
      (alpha c = 255 ∨
       (ellipse_mask (0, 0, size, size) x y = false ∧
        c = Synthesizer.transparent)) ∧
      (ellipse_mask (0, 0, size, size) x y = true → alpha c = 255) ∧
      (alpha c = 0 → ellipse_mask (0, 0, size, size) x y = false) ∧
      (untouched (Synthesizer.draw_calls size) x y = true →
       c = Synthesizer.transparent) ∧
      (untouched (Synthesizer.draw_calls size) x y = false →
       alpha c = 255).
Proof.
  intros Hsize img. subst img. unfold Synthesizer.create_storage_icon_image.
  destruct (draws_size (Synthesizer.draw_calls size)
              (Image_new size size Synthesizer.transparent))
    as (Hw & Hh & Hl).
  split_and!; [done | done | by rewrite Hl; simpl; rewrite length_replicate |].
  intros x y Hx Hy.
  destruct (untouched (Synthesizer.draw_calls size) x y) eqn:Huntouched.
  - exists Synthesizer.transparent.
    assert (ellipse_mask (0, 0, size, size) x y = false) as Hmask.
    { apply untouched_Forall in Huntouched.
      destruct (draw_calls_circle size) as [scene Hscene].
      rewrite Hscene in Huntouched.
      by apply Forall_cons in Huntouched as [Hcircle _]. }
    split; [by apply untouched_stays_transparent|].
    split_and!; try done; [by right | by rewrite Hmask].
  - destruct (touched_is_opaque size x y Hx Hy Huntouched) as (c & Hc & Ha).
    exists c. split; [done|].
    split_and!; try done; [by left | by rewrite Ha].
Qed.

Lemma synthesizer_size_and_opaque_circle_witness :
  0 < 16 ∧
  let img :=
    Synthesizer.create_storage_icon_image (R:=Geometric.rasterizer) 16 in
  im_width img = 16 ∧ im_height img = 16 ∧
  length (im_data img) = Z.to_nat (16 * 16) ∧
  ∀ x y, 0 <= x < 16 → 0 <= y < 16 →
    ∃ c, getpixel img x y = Some c ∧
      (alpha c = 255 ∨
       (Geometric.ellipse (0, 0, 16, 16) x y = false ∧
        c = Synthesizer.transparent)) ∧
      (Geometric.ellipse (0, 0, 16, 16) x y = true → alpha c = 255) ∧
      (alpha c = 0 → Geometric.ellipse (0, 0, 16, 16) x y = false) ∧
      (untouched (R:=Geometric.rasterizer) (Synthesizer.draw_calls 16) x y
       = true → c = Synthesizer.transparent) ∧
      (untouched (R:=Geometric.rasterizer) (Synthesizer.draw_calls 16) x y
       = false → alpha c = 255).
Proof.
  split; [lia|].
  apply (synthesizer_size_and_opaque_circle (R:=Geometric.rasterizer) 16).
  lia.
Defined.

(** C6.  For every size the synthesizer draws, after the background
    circle, exactly three shelves and then eight boxes, in rows of
    three, two and three, the boxes of the k-th row standing on the k-th
    shelf.  Each shelf and each box is a front rectangle, a top face and
    a side face, the two parallelograms that recede from the upper and
    from the right edge of the front; a box also gets the line of its
    tape.  Every coordinate of these shapes is a fixed fraction of
    [size]: exactly so without rounding, and, for the sizes up to 512,
    within [size / 2^50] of it in the floats that are passed to Pillow.
    The shapes are rendered: a pixel of the image that a shape touches,
    and no later shape, shows the outline or the fill of that shape. *)
Theorem synthesizer_scene_layout `{R : Rasterizer} size :
  let calls := Synthesizer.draw_calls size in
  let img := Synthesizer.create_storage_icon_image size in
  calls =
    Synthesizer.circle size ::
    (Layout.shelf_fronts ≫= Faces.shelf size) ++
    (Layout.box_fronts ≫= Faces.box size) ∧
  Spec.kind <$> calls =
    Spec.circle ::
    mjoin (replicate 3 Spec.shelf) ++ mjoin (replicate 8 Spec.box) ∧
  Forall Spec.four_cornered calls ∧
  length Layout.shelf_fronts = 3%nat ∧
  (λ row, length row.2) <$> Layout.rows = [3; 2; 3]%nat ∧
  (∀ s : Q,
     Forall (λ row,
       Forall (λ offset,
         (Layout.exact s (Layout.bottom (Layout.box_front row.1 offset)) ==
          Layout.exact s (Layout.top (Layout.shelf_front (row.1 - 1))))%Q)
         row.2)
       Layout.rows) ∧
  (∀ s : Q,
     Forall (λ t, (Layout.exact s t == s * Layout.ratio t)%Q)
       Layout.coordinates) ∧
  (1 <= size <= 512 →
   Forall2 (λ (p : point) (v : Layout.vertex),
              Layout.close size p.1 v.1 ∧ Layout.close size p.2 v.2)
     (calls ≫= Scene.vertices) Layout.vertices) ∧
  (∀ i call x y,
     0 <= x < size → 0 <= y < size →
     calls !! i = Some call →
     touches call x y = true →
     untouched (drop (S i) calls) x y = true →
     is_Some (ink_at call x y) ∧ getpixel img x y = ink_at call x y).
Proof.
  intros calls img. split_and!.
  - apply draw_calls_faces.
  - reflexivity.
  - subst calls. rewrite draw_calls_faces. apply Forall_cons. split; [done|].
    rewrite Forall_app.
    split; apply Forall_bind, Forall_forall; intros [[[x0 y0] x1] y1] _;
      repeat constructor.
  - reflexivity.
  - reflexivity.
  - apply boxes_on_shelves.
  - intros s. eapply Forall_impl; [apply coordinates_degree|].
    intros t Ht. by apply exact_ratio.
  - intros Hsize. subst calls. rewrite draw_calls_vertices.
    apply Forall2_fmap_l, Forall_Forall2_diag, Forall_forall.
    intros v Hv. simpl.
    split; apply proportional_range; try done; unfold Layout.coordinates;
      apply list_elem_of_bind; exists v; (split; [|done]).
    + by left.
    + right. by left.
  - intros i call x y Hx Hy Hcall Htouch Hafter.
    destruct (ink_at_touches call x y Htouch) as (c & Hink & _).
    split; [by rewrite Hink|]. rewrite Hink.
    subst img. unfold Synthesizer.create_storage_icon_image. fold calls.
    rewrite <- (take_drop_middle calls i call Hcall).
    eapply getpixel_draws_last; [by apply getpixel_Image_new|done|done].
Qed.

(** At size 192, under the reference rasterizer: the front of the first
    shelf, then the front, the top, the side and the tape of the first
    box; and the floats at the fractions. *)
Lemma synthesizer_scene_layout_witness :
  let calls := Synthesizer.draw_calls 192 in
  let img :=
    Synthesizer.create_storage_icon_image (R:=Geometric.rasterizer) 192 in
  (getpixel img 100 66 = Some Synthesizer.dark_brown ∧
   getpixel img 45 50 = Some Synthesizer.brown ∧
   getpixel img 50 41 = Some (169, 89, 39, 255) ∧
   getpixel img 64 50 = Some (109, 59, 29, 255) ∧
   getpixel img 45 51 = Some Synthesizer.box_outline) ∧
  1 <= 192 <= 512 ∧
  Forall2 (λ (p : point) (v : Layout.vertex),
             Layout.close 192 p.1 v.1 ∧ Layout.close 192 p.2 v.2)
    (calls ≫= Scene.vertices) Layout.vertices.
Proof.
  destruct (synthesizer_scene_layout (R:=Geometric.rasterizer) 192)
    as (_ & _ & _ & _ & _ & _ & _ & Hclose & Hrender).
  cbv zeta. split_and!.
  - eapply eq_trans;
      [eapply (Hrender 1%nat); [lia|lia|vm_compute; reflexivity..]
      |vm_compute; reflexivity].
  - eapply eq_trans;
      [eapply (Hrender 10%nat); [lia|lia|vm_compute; reflexivity..]
      |vm_compute; reflexivity].
  - eapply eq_trans;
      [eapply (Hrender 11%nat); [lia|lia|vm_compute; reflexivity..]
      |vm_compute; reflexivity].
  - eapply eq_trans;
      [eapply (Hrender 12%nat); [lia|lia|vm_compute; reflexivity..]
      |vm_compute; reflexivity].
  - eapply eq_trans;
      [eapply (Hrender 13%nat); [lia|lia|vm_compute; reflexivity..]
      |vm_compute; reflexivity].
  - lia.
  - lia.
  - apply Hclose. lia.
Defined.




(** * Further properties of the recolorizer *)

(** An image is well formed when it is sized and each of its pixels is
    valid. *)
Lemma wf_image_intro img :
  sized img →
  (∀ x y c, getpixel img x y = Some c → valid_color c = true) →
  wf_image img = true.
Proof.
  intros (Hw & Hh & Hl) Hvalid. unfold wf_image.
  repeat (apply andb_true_intro; split); try lia.
  apply forallb_forall. intros c Hc%list_elem_of_In.
  apply list_elem_of_lookup in Hc as [i Hi].
  pose proof (lookup_lt_Some _ _ _ Hi) as Hlt. rewrite Hl in Hlt.
  assert (0 < im_width img) as Hpos by nia.
  pose proof (Z.div_mod (Z.of_nat i) (im_width img)) as Hdm.
  pose proof (Z.mod_pos_bound (Z.of_nat i) (im_width img) Hpos) as Hm.
  assert (0 <= Z.of_nat i `div` im_width img < im_height img) as Hd.
  { split; [apply Z.div_pos; lia|].
    apply Z.div_lt_upper_bound; [done|]. lia. }
  apply (Hvalid (Z.of_nat i `mod` im_width img)
                (Z.of_nat i `div` im_width img)).
  unfold getpixel. rewrite offset_inside by done. simpl.
  rewrite <- Hi. f_equal. lia.
Qed.

Lemma brown_scaled_valid src :
  valid_color src = true → valid_color (Spec.brown_scaled src) = true.
Proof.
  destruct src as [[[r g] b] a]. intros Hv%valid_color_range.
  pose proof (brown_scaled_bounds r g b a) as Hb.
  destruct (Spec.brown_scaled (r, g, b, a)) as [[[r' g'] b'] a'] eqn:E.
  unfold valid_color.
  repeat (apply andb_true_intro; split); lia.
Qed.

(** What the recolorizer leaves at each position. *)
Lemma update_icon_image_pixels `{R : Rasterizer} img :
  wf_image img = true →
  ∃ out, Recolorizer.update_icon_image img = Some out ∧
    Spec.fits img out ∧
    ∀ x y src, getpixel img x y = Some src →
      getpixel out x y =
      Some (if alpha src =? 0
            then if ellipse_mask (0, 0, im_width img, im_height img) x y
                 then Recolorizer.light_red
                 else Recolorizer.transparent
            else Spec.brown_scaled src).
Proof.
  intros Hwf. pose proof (wf_image_sized _ Hwf) as Hs.
  destruct (update_icon_image_spec img Hs) as (out & E & Hfits & Hout).
  exists out. split_and!; [done..|]. intros x y src Hsrc.
  pose proof (getpixel_Some_inside _ _ _ _ Hsrc) as Hin.
  rewrite (Hout _ _ Hin).
  unfold Recolorizer.background, Recolorizer.circle_margin. simpl.
  rewrite getpixel_paint, getpixel_Image_new, !Z.sub_0_r by apply Hin.
  simpl. unfold Spec.remap_at. rewrite Hsrc. f_equal.
  pose proof (wf_image_valid _ _ _ _ Hwf Hsrc) as Hv.
  destruct (Z.eqb_spec (alpha src) 0) as [Ha|Ha].
  - destruct src as [[[r g] b] a]. unfold alpha in Ha. simpl in Ha. subst a.
    done.
  - apply remapped_brown_scaled; [done|].
    destruct src as [[[r g] b] a]. apply valid_color_range in Hv.
    unfold alpha in *. simpl in *. lia.
Qed.

Lemma update_icon_image_wf `{R : Rasterizer} img :
  wf_image img = true →
  ∃ out, Recolorizer.update_icon_image img = Some out ∧
    wf_image out = true ∧
    im_width out = im_width img ∧ im_height out = im_height img.
Proof.
  intros Hwf.
  destruct (update_icon_image_pixels img Hwf) as (out & E & Hfits & Hout).
  exists out. destruct Hfits as (Hs & Hw & Hh). split_and!; try done.
  apply wf_image_intro; [done|]. intros x y c Hc.
  pose proof (getpixel_Some_inside _ _ _ _ Hc) as Hin.
  unfold inside in Hin. rewrite Hw, Hh in Hin.
  destruct (getpixel_inside img x y (wf_image_sized _ Hwf) Hin) as [src Hsrc].
  rewrite (Hout _ _ _ Hsrc) in Hc. injection Hc as <-.
  destruct (alpha src =? 0); [by destruct (ellipse_mask _ _ _)|].
  apply brown_scaled_valid. by apply (wf_image_valid img x y).
Qed.

Lemma update_icon_Some `{R : Rasterizer} input_path output_path w w' :
  Recolorizer.update_icon input_path output_path w = Some w' ↔
  ∃ img out, files w !! input_path = Some img ∧
    Recolorizer.update_icon_image img = Some out ∧
    w' = World (<[output_path:=out]> (files w))
           (stdout w ++ ["Updated icon saved to: " +:+ output_path]).
Proof.
  unfold Recolorizer.update_icon, print, save. split.
  - intros H. destruct (files w !! input_path) as [img|]; [|done].
    simpl in H.
    destruct (Recolorizer.update_icon_image img) as [out|] eqn:E; [|done].
    simpl in H. injection H as <-. by exists img, out.
  - intros (img & out & -> & E & ->). simpl. by rewrite E.
Qed.

(** X1.  The recolorizer turns a well-formed image into a well-formed
    image of the same size: as many pixels as the size says, and every
    channel of every pixel a byte. *)
Theorem recolorizer_output_well_formed `{R : Rasterizer} img :
  wf_image img = true →
  ∃ out, Recolorizer.update_icon_image img = Some out ∧
    wf_image out = true ∧
    im_width out = im_width img ∧ im_height out = im_height img.
Proof. apply update_icon_image_wf. Qed.

Lemma recolorizer_output_well_formed_witness :
  wf_image Example.sample = true ∧
  ∃ out,
    Recolorizer.update_icon_image (R:=Geometric.rasterizer) Example.sample
    = Some out ∧
    wf_image out = true ∧
    im_width out = im_width Example.sample ∧
    im_height out = im_height Example.sample.
Proof.
  split; [reflexivity|].
  apply recolorizer_output_well_formed. reflexivity.
Defined.

(** X2.  The output is known pixel by pixel: where the source pixel is
    transparent the output shows the light red disc, or stays transparent
    outside of it; everywhere else it is the brown tone scaled by the
    source's brightness, with the source's alpha.  The output has no other
    colours: nothing of the source's hue is copied. *)
Theorem recolorizer_output_pixels `{R : Rasterizer} img x y src :
  wf_image img = true →
  getpixel img x y = Some src →
  ∃ out, Recolorizer.update_icon_image img = Some out ∧
    getpixel out x y =
    Some (if alpha src =? 0
          then if ellipse_mask (0, 0, im_width img, im_height img) x y
               then Recolorizer.light_red
               else Recolorizer.transparent
          else Spec.brown_scaled src).
Proof.
  intros Hwf Hsrc.
  destruct (update_icon_image_pixels img Hwf) as (out & E & _ & Hout).
  exists out. split; [done|]. by apply Hout.
Qed.

Lemma recolorizer_output_pixels_witness :
  wf_image Example.sample = true ∧
  getpixel Example.sample 1 0 = Some (0, 0, 0, 255) ∧
  ∃ out,
    Recolorizer.update_icon_image (R:=Geometric.rasterizer) Example.sample
    = Some out ∧
    getpixel out 1 0 =
    Some (if alpha (0, 0, 0, 255) =? 0
          then if Geometric.ellipse (0, 0, 2, 2) 1 0
               then Recolorizer.light_red
               else Recolorizer.transparent
          else Spec.brown_scaled (0, 0, 0, 255)).
Proof.
  split_and!; [reflexivity | reflexivity |].
  apply (recolorizer_output_pixels (R:=Geometric.rasterizer)
           Example.sample 1 0 (0, 0, 0, 255)); reflexivity.
Defined.

(** X3.  The remapping sees the brightness only: two source pixels with
    the same alpha > 0 and the same sum of channels come out the same,
    whatever their hues. *)
Theorem recolorizer_ignores_hue
    `{R : Rasterizer} img1 img2 x1 y1 x2 y2 r1 g1 b1 r2 g2 b2 a :
  wf_image img1 = true → wf_image img2 = true →
  getpixel img1 x1 y1 = Some (r1, g1, b1, a) →
  getpixel img2 x2 y2 = Some (r2, g2, b2, a) →
  0 < a →
  r1 + g1 + b1 = r2 + g2 + b2 →
  ∃ out1 out2 c,
    Recolorizer.update_icon_image img1 = Some out1 ∧
    Recolorizer.update_icon_image img2 = Some out2 ∧
    getpixel out1 x1 y1 = Some c ∧ getpixel out2 x2 y2 = Some c.
Proof.
  intros Hwf1 Hwf2 H1 H2 Ha Hsum.
  destruct (update_icon_image_pixels img1 Hwf1) as (out1 & E1 & _ & Hout1).
  destruct (update_icon_image_pixels img2 Hwf2) as (out2 & E2 & _ & Hout2).
  exists out1, out2, (Spec.brown_scaled (r1, g1, b1, a)).
  split_and!; [done | done | |].
  - rewrite (Hout1 _ _ _ H1). unfold alpha. simpl.
    by destruct (Z.eqb_spec a 0); [lia|].
  - rewrite (Hout2 _ _ _ H2). unfold alpha. simpl.
    destruct (Z.eqb_spec a 0); [lia|]. by rewrite Hsum.
Qed.

Lemma recolorizer_ignores_hue_witness :
  wf_image Example.sample = true ∧ wf_image Shades.tints = true ∧
  getpixel Example.sample 1 1 = Some (10, 20, 30, 7) ∧
  getpixel Shades.tints 1 0 = Some (60, 0, 0, 7) ∧
  0 < 7 ∧
  10 + 20 + 30 = 60 + 0 + 0 ∧
  ∃ out1 out2 c,
    Recolorizer.update_icon_image (R:=Geometric.rasterizer) Example.sample
    = Some out1 ∧
    Recolorizer.update_icon_image (R:=Geometric.rasterizer) Shades.tints
    = Some out2 ∧
    getpixel out1 1 1 = Some c ∧ getpixel out2 1 0 = Some c.
Proof.
  split_and!; [reflexivity | reflexivity | reflexivity | reflexivity
              | lia | reflexivity |].
  apply (recolorizer_ignores_hue (R:=Geometric.rasterizer)
           Example.sample Shades.tints 1 1 1 0 10 20 30 60 0 0 7);
    [reflexivity | reflexivity | reflexivity | reflexivity
    | lia | reflexivity].
Defined.

(** X4.  The remapping keeps the order of brightness: of two source
    pixels that are not transparent, the one with the larger sum of
    channels gets no smaller a red, green or blue. *)
Theorem recolorizer_monotone
    `{R : Rasterizer} img1 img2 x1 y1 x2 y2 r1 g1 b1 a1 r2 g2 b2 a2 :
  wf_image img1 = true → wf_image img2 = true →
  getpixel img1 x1 y1 = Some (r1, g1, b1, a1) →
  getpixel img2 x2 y2 = Some (r2, g2, b2, a2) →
  0 < a1 → 0 < a2 →
  r1 + g1 + b1 <= r2 + g2 + b2 →
  ∃ out1 out2 r1' g1' b1' r2' g2' b2',
    Recolorizer.update_icon_image img1 = Some out1 ∧
    Recolorizer.update_icon_image img2 = Some out2 ∧
    getpixel out1 x1 y1 = Some (r1', g1', b1', a1) ∧
    getpixel out2 x2 y2 = Some (r2', g2', b2', a2) ∧
    r1' <= r2' ∧ g1' <= g2' ∧ b1' <= b2'.
Proof.
  intros Hwf1 Hwf2 H1 H2 Ha1 Ha2 Hsum.
  destruct (update_icon_image_pixels img1 Hwf1) as (out1 & E1 & _ & Hout1).
  destruct (update_icon_image_pixels img2 Hwf2) as (out2 & E2 & _ & Hout2).
  exists out1, out2. do 6 eexists.
  split_and!; [done | done | | | | |].
  - rewrite (Hout1 _ _ _ H1). unfold alpha. simpl.
    by destruct (Z.eqb_spec a1 0); [lia|].
  - rewrite (Hout2 _ _ _ H2). unfold alpha. simpl.
    by destruct (Z.eqb_spec a2 0); [lia|].
  - apply Z.div_le_mono; lia.
  - apply Z.div_le_mono; lia.
  - apply Z.div_le_mono; lia.
Qed.

Lemma recolorizer_monotone_witness :
  wf_image Example.sample = true ∧ wf_image Example.sample = true ∧
  getpixel Example.sample 1 1 = Some (10, 20, 30, 7) ∧
  getpixel Example.sample 0 0 = Some (255, 255, 255, 255) ∧
  0 < 7 ∧ 0 < 255 ∧
  10 + 20 + 30 <= 255 + 255 + 255 ∧
  ∃ out1 out2 r1' g1' b1' r2' g2' b2',
    Recolorizer.update_icon_image (R:=Geometric.rasterizer) Example.sample
    = Some out1 ∧
    Recolorizer.update_icon_image (R:=Geometric.rasterizer) Example.sample
    = Some out2 ∧
    getpixel out1 1 1 = Some (r1', g1', b1', 7) ∧
    getpixel out2 0 0 = Some (r2', g2', b2', 255) ∧
    r1' <= r2' ∧ g1' <= g2' ∧ b1' <= b2'.
Proof.
  split_and!; [reflexivity | reflexivity | reflexivity | reflexivity
              | lia | lia | lia |].
  apply (recolorizer_monotone (R:=Geometric.rasterizer)
           Example.sample Example.sample 1 1 0 0 10 20 30 7 255 255 255 255);
    [reflexivity | reflexivity | reflexivity | reflexivity
    | lia | lia | lia].
Defined.

(** X5.  A run of [update_icon] that returns has written the output file
    and nothing else: every other file is as it was, and one line, which
    names the output path, is added to the console. *)
Theorem update_icon_effects
    `{R : Rasterizer} (input_path output_path : string) w w' :
  Recolorizer.update_icon input_path output_path w = Some w' →
  is_Some (files w' !! output_path) ∧
  (∀ path, path ≠ output_path → files w' !! path = files w !! path) ∧
  stdout w' = stdout w ++ ["Updated icon saved to: " +:+ output_path].
Proof.
  intros (img & out & _ & _ & ->)%update_icon_Some. simpl. split_and!.
  - rewrite lookup_insert_eq. by eexists.
  - intros path Hne. by rewrite lookup_insert_ne.
  - done.
Qed.

Lemma update_icon_effects_witness :
  ∃ w',
    Recolorizer.update_icon (R:=Geometric.rasterizer)
      "backup/icon.png" "icon.png" Example.disk = Some w' ∧
    is_Some (files w' !! "icon.png") ∧
    (∀ path : string,
       path ≠ "icon.png" → files w' !! path = files Example.disk !! path) ∧
    stdout w' = stdout Example.disk ++ ["Updated icon saved to: icon.png"].
Proof.
  eexists. split; [vm_compute; reflexivity|].
  apply (update_icon_effects (R:=Geometric.rasterizer)
           "backup/icon.png" "icon.png" Example.disk).
  vm_compute. reflexivity.
Defined.

(** X7.  When the output path is not the input path, [update_icon] leaves
    its input file alone, and running it a second time changes no file:
    it succeeds again and writes the same image. *)
Theorem update_icon_rerun
    `{R : Rasterizer} (input_path output_path : string) w w1 :
  input_path ≠ output_path →
  Recolorizer.update_icon input_path output_path w = Some w1 →
  files w1 !! input_path = files w !! input_path ∧
  ∃ w2, Recolorizer.update_icon input_path output_path w1 = Some w2 ∧
    files w2 = files w1.
Proof.
  intros Hne (img & out & Hin & E & ->)%update_icon_Some. simpl.
  split; [by rewrite lookup_insert_ne|].
  eexists. split.
  - apply update_icon_Some. exists img, out. simpl.
    by rewrite lookup_insert_ne.
  - simpl. by rewrite insert_insert_eq.
Qed.

Lemma update_icon_rerun_witness :
  ("backup/icon.png" : string) ≠ "icon.png" ∧
  ∃ w1,
    Recolorizer.update_icon (R:=Geometric.rasterizer)
      "backup/icon.png" "icon.png" Example.disk = Some w1 ∧
    files w1 !! "backup/icon.png" = files Example.disk !! "backup/icon.png" ∧
    ∃ w2,
      Recolorizer.update_icon (R:=Geometric.rasterizer)
        "backup/icon.png" "icon.png" w1 = Some w2 ∧
      files w2 = files w1.
Proof.
  split; [discriminate|].
  eexists. split; [vm_compute; reflexivity|].
  apply (update_icon_rerun (R:=Geometric.rasterizer)
           "backup/icon.png" "icon.png" Example.disk);
    [discriminate | vm_compute; reflexivity].
Defined.

(** X8.  Run in place, on its own output, the recolorizer does not repeat
    itself: a transparent source pixel inside the disc turns light red in
    the first run, and that light red is remapped to the brown
    (112, 55, 15, 255) in the second one. *)
Theorem update_icon_in_place_twice
    `{R : Rasterizer} (path : string) w img x y r g b :
  files w !! path = Some img →
  wf_image img = true →
  getpixel img x y = Some (r, g, b, 0) →
  ellipse_mask (0, 0, im_width img, im_height img) x y = true →
  ∃ w1 w2 out1 out2,
    Recolorizer.update_icon path path w = Some w1 ∧
    files w1 !! path = Some out1 ∧
    getpixel out1 x y = Some (255, 179, 186, 255) ∧
    Recolorizer.update_icon path path w1 = Some w2 ∧
    files w2 !! path = Some out2 ∧
    getpixel out2 x y = Some (112, 55, 15, 255).
Proof.
  intros Hfile Hwf Hsrc Hmask.
  destruct (update_icon_image_pixels img Hwf) as (out1 & E1 & _ & Hout1).
  destruct (update_icon_image_wf img Hwf) as (out1' & E1' & Hwf1 & Hw & Hh).
  rewrite E1 in E1'. injection E1' as <-.
  destruct (update_icon_image_pixels out1 Hwf1) as (out2 & E2 & _ & Hout2).
  pose proof (Hout1 _ _ _ Hsrc) as Hpx1. unfold alpha in Hpx1.
  simpl in Hpx1. rewrite Hmask in Hpx1.
  pose proof (Hout2 _ _ _ Hpx1) as Hpx2.
  eexists _, _, out1, out2. split_and!.
  - apply update_icon_Some. by exists img, out1.
  - simpl. apply lookup_insert_eq.
  - done.
  - apply update_icon_Some. exists out1, out2. simpl.
    by rewrite lookup_insert_eq.
  - simpl. apply lookup_insert_eq.
  - done.
Qed.

Lemma update_icon_in_place_twice_witness :
  files Example.disk !! "backup/icon.png" = Some Example.sample ∧
  wf_image Example.sample = true ∧
  getpixel Example.sample 0 1 = Some (10, 20, 30, 0) ∧
  Geometric.ellipse (0, 0, 2, 2) 0 1 = true ∧
  ∃ w1 w2 out1 out2,
    Recolorizer.update_icon (R:=Geometric.rasterizer)
      "backup/icon.png" "backup/icon.png" Example.disk = Some w1 ∧
    files w1 !! "backup/icon.png" = Some out1 ∧
    getpixel out1 0 1 = Some (255, 179, 186, 255) ∧
    Recolorizer.update_icon (R:=Geometric.rasterizer)
      "backup/icon.png" "backup/icon.png" w1 = Some w2 ∧
    files w2 !! "backup/icon.png" = Some out2 ∧
    getpixel out2 0 1 = Some (112, 55, 15, 255).
Proof.
  split_and!; [reflexivity | reflexivity | reflexivity | reflexivity |].
  apply (update_icon_in_place_twice (R:=Geometric.rasterizer)
           "backup/icon.png" Example.disk Example.sample 0 1 10 20 30);
    reflexivity.
Defined.

(** * The script of the recolorizer *)

(** X9.  When both backups are there, well formed, and the path module
    keeps the four paths apart, the script runs to its end: each icon
    file then holds an image of the size of its backup, both backups are
    as they were, and four lines were printed. *)
Theorem update_icons_main_done
    `{R : Rasterizer} `{P : OsPath} w img1 img2 :
  NoDup [UpdateIcons.backup_192; UpdateIcons.icon_192;
         UpdateIcons.backup_512; UpdateIcons.icon_512] →
  files w !! UpdateIcons.backup_192 = Some img1 → wf_image img1 = true →
  files w !! UpdateIcons.backup_512 = Some img2 → wf_image img2 = true →
  ∃ w' out1 out2,
    UpdateIcons.main w = Done w' ∧
    files w' !! UpdateIcons.icon_192 = Some out1 ∧
    im_width out1 = im_width img1 ∧ im_height out1 = im_height img1 ∧
    files w' !! UpdateIcons.icon_512 = Some out2 ∧
    im_width out2 = im_width img2 ∧ im_height out2 = im_height img2 ∧
    files w' !! UpdateIcons.backup_192 = Some img1 ∧
    files w' !! UpdateIcons.backup_512 = Some img2 ∧
    stdout w' =
      stdout w ++
      [ "Updated icon saved to: " +:+ UpdateIcons.icon_192;
        "Updated icon saved to: " +:+ UpdateIcons.icon_512;
        String newline "Icons updated successfully!";
        "Original icons backed up to: "
          +:+ join UpdateIcons.icons_dir ["backup"] ].
Proof.
  intros Hapart Hf1 Hwf1 Hf2 Hwf2.
  assert (UpdateIcons.backup_192 ≠ UpdateIcons.icon_192 ∧
          UpdateIcons.backup_192 ≠ UpdateIcons.icon_512 ∧
          UpdateIcons.backup_512 ≠ UpdateIcons.icon_192 ∧
          UpdateIcons.backup_512 ≠ UpdateIcons.icon_512 ∧
          UpdateIcons.icon_192 ≠ UpdateIcons.icon_512)
    as (N1 & N2 & N3 & N4 & N5).
  { rewrite !NoDup_cons, !not_elem_of_cons in Hapart.
    intuition congruence. }
  destruct (update_icon_image_wf img1 Hwf1) as (out1 & E1 & _ & Hw1 & Hh1).
  destruct (update_icon_image_wf img2 Hwf2) as (out2 & E2 & _ & Hw2 & Hh2).
  eexists _, out1, out2. split.
  - unfold UpdateIcons.main.
    rewrite (proj2 (update_icon_Some _ _ w _)) by (by exists img1, out1).
    rewrite (proj2 (update_icon_Some _ _ _ _))
      by (exists img2, out2; simpl; by rewrite lookup_insert_ne).
    done.
  - simpl. rewrite <- !app_assoc. simpl.
    rewrite lookup_insert_eq, !lookup_insert_ne, lookup_insert_eq by done.
    by rewrite !lookup_insert_ne by done.
Qed.

Lemma update_icons_main_done_witness :
  NoDup [UpdateIcons.backup_192 (P:=Windows.os_path);
         UpdateIcons.icon_192 (P:=Windows.os_path);
         UpdateIcons.backup_512 (P:=Windows.os_path);
         UpdateIcons.icon_512 (P:=Windows.os_path)] ∧
  files Backup.both !! UpdateIcons.backup_192 (P:=Windows.os_path)
  = Some Example.sample ∧
  wf_image Example.sample = true ∧
  files Backup.both !! UpdateIcons.backup_512 (P:=Windows.os_path)
  = Some Example.blank ∧
  wf_image Example.blank = true ∧
  ∃ w' out1 out2,
    UpdateIcons.main (R:=Geometric.rasterizer) (P:=Windows.os_path)
      Backup.both = Done w' ∧
    files w' !! UpdateIcons.icon_192 (P:=Windows.os_path) = Some out1 ∧
    im_width out1 = im_width Example.sample ∧
    im_height out1 = im_height Example.sample ∧
    files w' !! UpdateIcons.icon_512 (P:=Windows.os_path) = Some out2 ∧
    im_width out2 = im_width Example.blank ∧
    im_height out2 = im_height Example.blank ∧
    files w' !! UpdateIcons.backup_192 (P:=Windows.os_path)
    = Some Example.sample ∧
    files w' !! UpdateIcons.backup_512 (P:=Windows.os_path)
    = Some Example.blank ∧
    stdout w' =
      stdout Backup.both ++
      [ "Updated icon saved to: "
          +:+ UpdateIcons.icon_192 (P:=Windows.os_path);
        "Updated icon saved to: "
          +:+ UpdateIcons.icon_512 (P:=Windows.os_path);
        String newline "Icons updated successfully!";
        "Original icons backed up to: "
          +:+ join (OsPath:=Windows.os_path) UpdateIcons.icons_dir
                ["backup"] ].
Proof.
  assert (NoDup [UpdateIcons.backup_192 (P:=Windows.os_path);
                 UpdateIcons.icon_192 (P:=Windows.os_path);
                 UpdateIcons.backup_512 (P:=Windows.os_path);
                 UpdateIcons.icon_512 (P:=Windows.os_path)]) as Hapart
    by (vm_compute; apply (bool_decide_unpack _); vm_compute; exact I).
  split_and!; [exact Hapart | reflexivity | reflexivity
              | reflexivity | reflexivity |].
  apply (update_icons_main_done (R:=Geometric.rasterizer)
           (P:=Windows.os_path) Backup.both Example.sample Example.blank);
    [exact Hapart | reflexivity | reflexivity | reflexivity | reflexivity].
Defined.

(** X10.  The script handles no error.  When the first backup is missing
    it stops with nothing written and nothing printed.  When only the
    second backup is missing (and the first icon is not written onto its
    path) it stops half way: the first icon is written, its line is
    printed, and the rest of the world is as it was. *)
Theorem update_icons_main_raises `{R : Rasterizer} `{P : OsPath} w :
  (files w !! UpdateIcons.backup_192 = None →
   UpdateIcons.main w = Raised w) ∧
  (∀ img1,
     files w !! UpdateIcons.backup_192 = Some img1 →
     wf_image img1 = true →
     files w !! UpdateIcons.backup_512 = None →
     UpdateIcons.backup_512 ≠ UpdateIcons.icon_192 →
     ∃ w1 out1,
       UpdateIcons.main w = Raised w1 ∧
       files w1 !! UpdateIcons.icon_192 = Some out1 ∧
       (∀ path, path ≠ UpdateIcons.icon_192 →
                files w1 !! path = files w !! path) ∧
       stdout w1 =
         stdout w ++ ["Updated icon saved to: " +:+ UpdateIcons.icon_192]).
Proof.
  split.
  - intros Hnone. unfold UpdateIcons.main, Recolorizer.update_icon.
    by rewrite Hnone.
  - intros img1 Hf1 Hwf1 Hnone Hne.
    destruct (update_icon_image_wf img1 Hwf1) as (out1 & E1 & _).
    eexists _, out1. split.
    + unfold UpdateIcons.main.
      rewrite (proj2 (update_icon_Some _ _ w _)) by (by exists img1, out1).
      unfold Recolorizer.update_icon at 1. simpl.
      by rewrite lookup_insert_ne, Hnone by done.
    + simpl. split_and!; [apply lookup_insert_eq | | done].
      intros path Hpath. by rewrite lookup_insert_ne.
Qed.

Lemma update_icons_main_raises_witness :
  (files Backup.first_only !! UpdateIcons.backup_192 (P:=Windows.os_path)
   = Some Example.sample ∧
   wf_image Example.sample = true ∧
   files Backup.first_only !! UpdateIcons.backup_512 (P:=Windows.os_path)
   = None ∧
   UpdateIcons.backup_512 (P:=Windows.os_path)
   ≠ UpdateIcons.icon_192 (P:=Windows.os_path)) ∧
  ∃ w1 out1,
    UpdateIcons.main (R:=Geometric.rasterizer) (P:=Windows.os_path)
      Backup.first_only = Raised w1 ∧
    files w1 !! UpdateIcons.icon_192 (P:=Windows.os_path) = Some out1 ∧
    (∀ path, path ≠ UpdateIcons.icon_192 (P:=Windows.os_path) →
             files w1 !! path = files Backup.first_only !! path) ∧
    stdout w1 =
      stdout Backup.first_only ++
      ["Updated icon saved to: "
         +:+ UpdateIcons.icon_192 (P:=Windows.os_path)].
Proof.
  assert (UpdateIcons.backup_512 (P:=Windows.os_path)
          ≠ UpdateIcons.icon_192 (P:=Windows.os_path)) as Hne
    by (vm_compute; discriminate).
  split; [split_and!; [reflexivity | reflexivity | reflexivity | exact Hne]|].
  apply (proj2 (update_icons_main_raises (R:=Geometric.rasterizer)
                  (P:=Windows.os_path) Backup.first_only) Example.sample);
    [reflexivity | reflexivity | reflexivity | exact Hne].
Defined.

(** * Further properties of the synthesizer *)

Section Layers.
Context {R : Rasterizer}.

Lemma draw_calls_layers size :
  Synthesizer.draw_calls size =
  Synthesizer.circle size :: Scene.shelves size ++ Scene.boxes size.
Proof. reflexivity. Qed.

Lemma shelves_inks size :
  Forall (λ call, Forall (λ c, c ∈ Scene.shelf_inks) (inks call))
    (Scene.shelves size).
Proof.
  unfold Scene.shelves. apply Forall_bind, Forall_forall. intros i _.
  unfold Synthesizer.draw_shelf, Scene.shelf_inks.
  repeat constructor; set_solver.
Qed.

Lemma boxes_inks size :
  Forall (λ call, Forall (λ c, c ∈ Scene.box_inks) (inks call))
    (Scene.boxes size).
Proof.
  unfold Scene.boxes, Scene.boxes_on. rewrite !Forall_app.
  split_and!; apply Forall_join, Forall_fmap, Forall_forall; intros x _;
    unfold Synthesizer.draw_3d_box, Scene.box_inks;
    repeat constructor; set_solver.
Qed.

Lemma layers size x y :
  0 <= x < size → 0 <= y < size →
  ∃ c, getpixel (Synthesizer.create_storage_icon_image size) x y = Some c ∧
    if existsb (λ call, touches call x y) (Scene.boxes size)
    then c ∈ Scene.box_inks
    else if existsb (λ call, touches call x y) (Scene.shelves size)
    then c ∈ Scene.shelf_inks
    else if ellipse_mask (0, 0, size, size) x y
    then c = Synthesizer.off_white
    else c = Synthesizer.transparent.
Proof.
  intros Hx Hy. unfold Synthesizer.create_storage_icon_image.
  rewrite draw_calls_layers, foldl_draw_cons, draws_app.
  set (disc := draw _ (Synthesizer.circle size)).
  assert (getpixel disc x y =
          Some (if ellipse_mask (0, 0, size, size) x y
                then Synthesizer.off_white else Synthesizer.transparent))
    as Hdisc.
  { subst disc. simpl. by rewrite getpixel_paint, getpixel_Image_new. }
  assert (∃ c1, getpixel (foldl draw disc (Scene.shelves size)) x y = Some c1 ∧
            if existsb (λ call, touches call x y) (Scene.shelves size)
            then c1 ∈ Scene.shelf_inks
            else c1 = if ellipse_mask (0, 0, size, size) x y
                      then Synthesizer.off_white
                      else Synthesizer.transparent)
    as (c1 & Hc1 & Hshelf).
  { destruct (existsb _ (Scene.shelves size)) eqn:Hex.
    - destruct (getpixel_draws_touched _ _ _ _ _ Hdisc Hex)
        as (c' & call & Hc' & Hcall & Hink).
      exists c'. split; [done|].
      pose proof (shelves_inks size) as Hall.
      rewrite Forall_forall in Hall. specialize (Hall _ Hcall).
      rewrite Forall_forall in Hall. by apply Hall.
    - eexists. split; [|done].
      apply getpixel_draws_untouched; [done|].
      by apply existsb_touches_false. }
  destruct (existsb _ (Scene.boxes size)) eqn:Hex.
  - destruct (getpixel_draws_touched _ _ _ _ _ Hc1 Hex)
      as (c' & call & Hc' & Hcall & Hink).
    exists c'. split; [done|].
    pose proof (boxes_inks size) as Hall.
    rewrite Forall_forall in Hall. specialize (Hall _ Hcall).
    rewrite Forall_forall in Hall. by apply Hall.
  - exists c1. split.
    + apply getpixel_draws_untouched; [done|].
      by apply existsb_touches_false.
    + destruct (existsb _ (Scene.shelves size)); [done|].
      by destruct (ellipse_mask _ x y).
Qed.

End Layers.

(** X11.  The synthesizer paints in layers, the later over the earlier:
    a pixel that a box touches shows an ink of the boxes, whatever the
    shelves painted there; a pixel that only shelves touch shows an ink
    of the shelves; a pixel that neither touches is off-white inside the
    circle and transparent outside.  So the icon has nine colours at
    most. *)
Theorem synthesizer_layers `{R : Rasterizer} size x y :
  0 <= x < size → 0 <= y < size →
  ∃ c, getpixel (Synthesizer.create_storage_icon_image size) x y = Some c ∧
    if existsb (λ call, touches call x y) (Scene.boxes size)
    then c ∈ Scene.box_inks
    else if existsb (λ call, touches call x y) (Scene.shelves size)
    then c ∈ Scene.shelf_inks
    else if ellipse_mask (0, 0, size, size) x y
    then c = Synthesizer.off_white
    else c = Synthesizer.transparent.
Proof. apply layers. Qed.

Lemma synthesizer_layers_witness :
  0 <= 8 < 16 ∧ 0 <= 5 < 16 ∧
  ∃ c,
    getpixel
      (Synthesizer.create_storage_icon_image (R:=Geometric.rasterizer) 16)
      8 5 = Some c ∧
    if existsb (λ call, touches (R:=Geometric.rasterizer) call 8 5)
         (Scene.boxes 16)
    then c ∈ Scene.box_inks
    else if existsb (λ call, touches (R:=Geometric.rasterizer) call 8 5)
              (Scene.shelves 16)
    then c ∈ Scene.shelf_inks
    else if Geometric.ellipse (0, 0, 16, 16) 8 5
    then c = Synthesizer.off_white
    else c = Synthesizer.transparent.
Proof.
  split_and!; [lia.. |].
  apply (synthesizer_layers (R:=Geometric.rasterizer) 16 8 5); lia.
Defined.

(** ** The layout of the scene, up to the largest size the script uses *)

(** Checked at each size from 1 to 512. *)
Lemma well_laid_out_all : forallb Scene.well_laid_out (seqZ 1 512) = true.
Proof. vm_compute. reflexivity. Qed.

Lemma well_laid_out_range size :
  1 <= size <= 512 → Scene.well_laid_out size = true.
Proof.
  intros Hs. pose proof well_laid_out_all as Hall.
  rewrite forallb_forall in Hall. apply Hall.
  apply list_elem_of_In, elem_of_seqZ. lia.
Qed.

Lemma well_laid_out_parts size :
  1 <= size <= 512 →
  forallb (Scene.in_canvas size)
    (Synthesizer.draw_calls size ≫= Scene.vertices) = true ∧
  forallb (Scene.width_agrees size) (Synthesizer.draw_calls size) = true ∧
  Scene.boxes_clear size = true ∧
  Scene.boxes_apart size = true.
Proof.
  intros Hs%well_laid_out_range. unfold Scene.well_laid_out in Hs.
  rewrite !andb_true_iff in Hs. tauto.
Qed.

(** X13.  For every size from 1 to 512, every corner of every shelf and
    of every box that the synthesizer draws lies on the canvas: both of
    its coordinates are between 0 and [size]. *)
Theorem scene_on_canvas size :
  1 <= size <= 512 →
  Forall (λ p, Scene.in_canvas size p = true)
    (Synthesizer.draw_calls size ≫= Scene.vertices).
Proof.
  intros (Hs & _)%well_laid_out_parts.
  rewrite forallb_forall in Hs. apply Forall_forall.
  intros p Hp%list_elem_of_In. by apply Hs.
Qed.

Lemma scene_on_canvas_witness :
  1 <= 192 <= 512 ∧
  Forall (λ p, Scene.in_canvas 192 p = true)
    (Synthesizer.draw_calls 192 ≫= Scene.vertices).
Proof. split; [lia|]. apply scene_on_canvas. lia. Defined.

(** X14.  For every size from 1 to 512, the outlines of the front faces
    are [max 1 (size / 200)] pixels wide and the tape lines
    [max 1 (size / 250)]: the products [size * 0.005] and [size * 0.004]
    in floating point lose nothing, and no width is ever below one
    pixel. *)
Theorem outline_widths size :
  1 <= size <= 512 →
  Forall (λ c,
    match c with
    | Rectangle _ _ _ width => width = Z.max 1 (size `div` 200)
    | Line _ _ width => width = Z.max 1 (size `div` 250)
    | _ => True
    end) (Synthesizer.draw_calls size).
Proof.
  intros (_ & Hw & _)%well_laid_out_parts.
  rewrite forallb_forall in Hw.
  apply Forall_forall. intros c Hc%list_elem_of_In.
  specialize (Hw c Hc). unfold Scene.width_agrees in Hw.
  destruct c; try done; by apply Z.eqb_eq.
Qed.

Lemma outline_widths_witness :
  1 <= 512 <= 512 ∧
  Forall (λ c,
    match c with
    | Rectangle _ _ _ width => width = Z.max 1 (512 `div` 200)
    | Line _ _ width => width = Z.max 1 (512 `div` 250)
    | _ => True
    end) (Synthesizer.draw_calls 512).
Proof. split; [lia|]. apply outline_widths. lia. Defined.

(** X15.  For every size from 1 to 512, the boxes of the second and of
    the third shelf stand clear of the shelf above them: every corner of
    that shelf is higher on the screen than every corner of the box, as
    the comment on [box_height] intends. *)
Theorem boxes_clear_of_the_shelf_above size :
  1 <= size <= 512 → Scene.boxes_clear size = true.
Proof.
  by intros (_ & _ & Hs & _)%well_laid_out_parts.
Qed.

Lemma boxes_clear_of_the_shelf_above_witness :
  1 <= 192 <= 512 ∧ Scene.boxes_clear 192 = true.
Proof. split; [lia|]. apply boxes_clear_of_the_shelf_above. lia. Defined.

(** X16.  For every size from 1 to 512, the boxes of one shelf stand side
    by side without overlapping: every corner of a box, its side face
    included, is to the left of every corner of the next box. *)
Theorem boxes_side_by_side size :
  1 <= size <= 512 → Scene.boxes_apart size = true.
Proof.
  by intros (_ & _ & _ & Hs)%well_laid_out_parts.
Qed.

Lemma boxes_side_by_side_witness :
  1 <= 512 <= 512 ∧ Scene.boxes_apart 512 = true.
Proof. split; [lia|]. apply boxes_side_by_side. lia. Defined.
